(** * libsigrokdecode: the decoder registry and the session bridge of decode.c

    A shallow embedding of [decode.c].  The C globals ([list_pds],
    [decoders], the function-static [_timehack]) and the state of the
    embedded Python interpreter are threaded explicitly through every
    function.  Python objects are modelled as far as the host looks at them:
    attribute tables, mutable dictionaries held in a heap and shared by
    reference, and scripts (method bodies, constructors, module bodies) as
    what they do to the host while they run, followed by how they end: with
    a value, with an exception, or with [SystemExit].

    Modelling conventions.
    - A C string ([char *]) is the [string] of the bytes before its
      terminating NUL; a Python [str] may hold NUL bytes, and crossing from
      Python to C ([PyString_AsString] followed by [g_strdup]) keeps the bytes
      before the first one.
    - Memory allocation ([malloc], [g_malloc], [g_strdup], [PyTuple_New],
      [PyInt_FromLong]) is taken to succeed, so the [SRD_ERR_MALLOC] paths
      are not reached.
    - Reference counts ([Py_INCREF], [Py_XDECREF]) are not tracked.
    - [invoked] is a ghost log of the method calls the host issues; the
      scripts cannot touch it.
    - A script acts on the host through the two functions the host exports,
      [sigrok.register] and [sigrok.put], and on the interpreter state.
    - [PyErr_Print] ends the process when the exception it is given is
      [SystemExit]; what it prints is not kept.  The interpreter's error
      indicator is not kept either: after a failed call the source prints the
      exception, which clears it, except for the store of
      [srd_instance_set_probe], whose result the source ignores.
    - For [srd_init], what lies outside the process (the entries of the
      decoders directory, whether the module set-up succeeds, what importing
      a module does) is given by an [environment]; [imported] is a ghost log
      of the modules asked for.
    - [srd_exit], [srd_unload_decoder] and [srd_unload_all_decoders] free
      memory and drop references and do nothing else; they are not part of
      this model. *)

From Stdlib Require Import ZArith.
From Stdlib.Strings Require Import Byte.
From stdpp Require Import gmap strings list fin_maps.

Local Open Scope Z_scope.

(** ** Status codes *)

(** Modelled from the spec: the status codes of [sigrokdecode.h], which is
    not among the sources.  [decode.c] names these five; its doc comments
    say "SRD_OK upon success, a (negative) error code otherwise", so the
    tests [r < 0] and [ret != SRD_OK] of the source both come out as
    [is_error]. *)
Inductive srd_status : Type :=
  | SRD_OK
  | SRD_ERR_MALLOC
  | SRD_ERR_ARGS
  | SRD_ERR_PYTHON
  | SRD_ERR_DECODERS_DIR.

Definition is_error (r : srd_status) : bool :=
  match r with
  | SRD_OK => false
  | _ => true
  end.

(** The error kinds of the specification (its section 7). *)
Inductive error_kind : Type :=
  | ARGS
  | SCRIPT
  | SCRIPT_METADATA
  | DECODERS_DIR
  | ALLOC.

(** The kind each status code of the source stands for; no code of the
    source stands for [SCRIPT_METADATA]. *)
Definition kind_of (r : srd_status) : option error_kind :=
  match r with
  | SRD_OK => None
  | SRD_ERR_MALLOC => Some ALLOC
  | SRD_ERR_ARGS => Some ARGS
  | SRD_ERR_PYTHON => Some SCRIPT
  | SRD_ERR_DECODERS_DIR => Some DECODERS_DIR
  end.

(** A call either returns to its caller or ends the process ([exit]). *)
Inductive outcome (A : Type) : Type :=
  | Returns (a : A)
  | Exits (code : Z).
Arguments Returns {A} a.
Arguments Exits {A} code.

(** The error kind of a call that returned an error status. *)
Definition outcome_kind (o : outcome srd_status) : option error_kind :=
  match o with
  | Returns r => kind_of r
  | Exits _ => None
  end.

(** ** Machine integers *)

Definition to_uint64 (z : Z) : Z := z mod 2 ^ 64.

(** Conversion to [int] (32 bits, two's complement). *)
Definition to_int (z : Z) : Z := (z + 2 ^ 31) mod 2 ^ 32 - 2 ^ 31.

(** Conversion to [long] (64 bits, two's complement). *)
Definition to_long (z : Z) : Z := (z + 2 ^ 63) mod 2 ^ 64 - 2 ^ 63.

Definition INT_MAX : Z := 2 ^ 31 - 1.

(** ** C strings *)

(** The bytes of [s] before its first NUL: what a [char *] pointing at the
    buffer of [s] denotes. *)
Fixpoint c_str (s : string) : string :=
  match s with
  | EmptyString => EmptyString
  | String c s' =>
      if Ascii.eqb c Ascii.zero then EmptyString else String c (c_str s')
  end.

(** [s] holds no NUL byte. *)
Fixpoint nul_free (s : string) : bool :=
  match s with
  | EmptyString => true
  | String c s' => negb (Ascii.eqb c Ascii.zero) && nul_free s'
  end.

Definition g_strdup (str : string) : option string := Some str.

Definition strcmp (a b : string) : Z :=
  match String.compare a b with
  | Eq => 0
  | Lt => -1
  | Gt => 1
  end.

(** ** The Python side *)

Definition addr := nat.

(** An attribute or dictionary value.  Mutable dictionaries live in the
    heap and are held by reference, so that two holders of the same
    dictionary see each other's updates. *)
Inductive pyvalue : Type :=
  | PyNone
  | PyInt (n : Z)
  | PyString (s : string)
  | PyDict (a : addr).

(** The interpreter state a script can read and change: the heap of
    string-keyed dictionaries (ordinary dictionaries and the attribute
    dictionaries of instances) and what [sigrok.put] has printed. *)
Record interp : Type := mk_interp {
  heap : gmap addr (gmap string pyvalue);
  py_stdout : list pyvalue
}.

(** The structured argument of a method call: the dictionary built by the
    format strings ["{s:s,s:l,s:l,s:l}"] and ["{s:i,s:i,s:s#}"]. *)
Inductive call_args : Type :=
  | StartArgs (driver : string) (unitsize starttime samplerate : Z)
  | DecodeArgs (time duration : Z) (data : list byte).

(** How a call into the interpreter ends: with a new reference, or with
    NULL and an exception set.  [SystemExit] is kept apart from the other
    exceptions because [PyErr_Print] ends the process on it; [status] is the
    exit status the interpreter derives from the exception. *)
Inductive pyresult (A : Type) : Type :=
  | PyReturn (a : A)
  | PyRaise
  | PySystemExit (status : Z).
Arguments PyReturn {A} a.
Arguments PyRaise {A}.
Arguments PySystemExit {A} status.

(** What a script does to the host while it runs: it calls
    [sigrok.register], it calls [sigrok.put], or it changes the
    interpreter state on its own.  The object a decoder module hands to
    [sigrok.register] has attributes, a constructor (what calling it with no
    arguments does to the fresh instance) and the methods of its instances;
    constructor and methods are scripts: from the interpreter state they
    find, the actions they perform in order and the way they end. *)
Inductive action : Type :=
  | Register (obj : pyclass)
  | Put (arg : pyvalue)
  | Exec (f : interp -> interp)
with pyclass : Type :=
  | mk_pyclass (attrs : gmap string pyvalue)
      (init : addr -> interp -> list action * pyresult unit)
      (meths : gmap string
                 (addr -> call_args -> interp
                  -> list action * pyresult pyvalue)).

(** A method body: run on [self] (the address of the instance's attribute
    dictionary) with one argument. *)
Definition method : Type :=
  addr -> call_args -> interp -> list action * pyresult pyvalue.

Definition cl_attrs (c : pyclass) : gmap string pyvalue :=
  let 'mk_pyclass attrs _ _ := c in attrs.

Definition cl_init (c : pyclass)
    : addr -> interp -> list action * pyresult unit :=
  let 'mk_pyclass _ init _ := c in init.

Definition cl_methods (c : pyclass) : gmap string method :=
  let 'mk_pyclass _ _ meths := c in meths.

Record pyinstance : Type := mk_pyinstance {
  in_dict : addr;
  in_class : pyclass
}.

(** ** The host's data *)

Record srd_decoder : Type := mk_srd_decoder {
  id : string;
  name : string;
  longname : string;
  desc : string;
  longdesc : string;
  author : string;
  email : string;
  license : string;
  py_decobj : pyclass
}.

Record srd_decoder_instance : Type := mk_srd_decoder_instance {
  py_instance : pyinstance
}.

(** One method call issued by the host. *)
Record invocation : Type := mk_invocation {
  inv_self : pyinstance;
  inv_method : string;
  inv_args : call_args
}.

(** What the host itself writes to [stderr]. *)
Inductive diag : Type :=
  | Registered (id : string)
  | DecoderRuntimeError (ret : srd_status).

Record state : Type := mk_state {
  list_pds : list srd_decoder;
  decoders : list srd_decoder_instance;
  _timehack : Z;
  py : interp;
  invoked : list invocation;
  errlog : list diag
}.

Definition set_list_pds (l : list srd_decoder) (st : state) : state :=
  mk_state l (decoders st) (_timehack st) (py st) (invoked st) (errlog st).
Definition set_decoders (l : list srd_decoder_instance) (st : state) : state :=
  mk_state (list_pds st) l (_timehack st) (py st) (invoked st) (errlog st).
Definition set_timehack (t : Z) (st : state) : state :=
  mk_state (list_pds st) (decoders st) t (py st) (invoked st) (errlog st).
Definition set_py (p : interp) (st : state) : state :=
  mk_state (list_pds st) (decoders st) (_timehack st) p (invoked st) (errlog st).
Definition set_invoked (l : list invocation) (st : state) : state :=
  mk_state (list_pds st) (decoders st) (_timehack st) (py st) l (errlog st).
Definition set_errlog (l : list diag) (st : state) : state :=
  mk_state (list_pds st) (decoders st) (_timehack st) (py st) (invoked st) l.

(** ** The Python C API, as far as decode.c calls it *)

(** [PyObject_GetAttrString] works on any [PyObject *]; the host applies it
    to a registered object and to an instance. *)
Class HasAttr (O : Type) : Type :=
  PyObject_GetAttrString : interp -> O -> string -> option pyvalue.

#[export] Instance pyclass_attr : HasAttr pyclass :=
  fun _ o key => cl_attrs o !! key.

(** An instance's own attributes come first, then those of its class. *)
#[export] Instance pyinstance_attr : HasAttr pyinstance :=
  fun p o key =>
    match heap p !! in_dict o with
    | Some d =>
        match d !! key with
        | Some v => Some v
        | None => cl_attrs (in_class o) !! key
        end
    | None => cl_attrs (in_class o) !! key
    end.

Definition PyString_Check (o : pyvalue) : bool :=
  match o with
  | PyString _ => true
  | _ => false
  end.

Definition PyString_AsString (o : pyvalue) : option string :=
  match o with
  | PyString s => Some (c_str s)
  | _ => None
  end.

(** The argument is a C [int] widened to [long]: stored unchanged. *)
Definition PyInt_FromLong (num : Z) : pyvalue := PyInt num.

(** Item assignment works on dictionaries only; the result is 0 or -1.  A
    store that fails leaves an exception pending (a [TypeError], for the
    values modelled here).  The model does not hold the interpreter's error
    indicator: the source consults it only to decide whether to print, and
    printing this exception neither ends the process nor changes anything
    the model holds. *)
Definition PyMapping_SetItemString (p : interp) (o : pyvalue) (key : string)
    (v : pyvalue) : Z * interp :=
  match o with
  | PyDict a =>
      match heap p !! a with
      | Some d => (0, mk_interp (<[a := <[key := v]> d]> (heap p)) (py_stdout p))
      | None => (-1, p)
      end
  | _ => (-1, p)
  end.

(** The exit status when [PyErr_Print] ends the process: it does on
    [SystemExit] and returns on every other exception. *)
Definition PyErr_Print {A : Type} (res : pyresult A) : option Z :=
  match res with
  | PySystemExit status => Some status
  | _ => None
  end.

(** ** decode.c *)

(** The result of a helper that returns a status and, on success, writes
    through an out parameter: [Err r] is "returned the negative code [r]",
    [Ok a] is "returned SRD_OK with a stored".  The source's
    [if ((r = f(...)) < 0) return r;] is [bind]. *)
Inductive result (A : Type) : Type :=
  | Ok (a : A)
  | Err (r : srd_status).
Arguments Ok {A} a.
Arguments Err {A} r.

Definition bind {A B : Type} (c : result A) (k : A -> result B) : result B :=
  match c with
  | Ok a => k a
  | Err r => Err r
  end.

Notation "'let*' x ':=' c 'in' k" := (bind c (fun x => k))
  (at level 10, x name, c at level 100, k at level 200).

Definition emb_put (arg : pyvalue) (st : state) : pyvalue * state :=
  (PyNone, set_py (mk_interp (heap (py st)) (py_stdout (py st) ++ [arg])) st).

Definition srd_list_decoders (st : state) : list srd_decoder := list_pds st.

Fixpoint srd_get_decoder_by_id_loop (l : list srd_decoder) (id0 : string)
    : option srd_decoder :=
  match l with
  | [] => None
  | dec :: l' =>
      if strcmp (id dec) id0 =? 0 then Some dec
      else srd_get_decoder_by_id_loop l' id0
  end.

Definition srd_get_decoder_by_id (id0 : string) (st : state)
    : option srd_decoder :=
  srd_get_decoder_by_id_loop (srd_list_decoders st) id0.

Definition h_str (p : interp) (py_res : pyclass) (key : string)
    : result string :=
  match PyObject_GetAttrString p py_res key with
  | None => Err SRD_ERR_PYTHON
  | Some py_str =>
      if negb (PyString_Check py_str) then Err SRD_ERR_PYTHON
      else
        match PyString_AsString py_str with
        | None => Err SRD_ERR_PYTHON
        | Some str =>
            match g_strdup str with
            | None => Err SRD_ERR_MALLOC
            | Some outstr => Ok outstr
            end
        end
  end.

(** The descriptor [srd_load_decoder] fills in, field by field. *)
Definition read_decoder (p : interp) (py_res : pyclass) : result srd_decoder :=
  let* d_id := h_str p py_res "id" in
  let* d_name := h_str p py_res "name" in
  let* d_longname := h_str p py_res "longname" in
  let* d_desc := h_str p py_res "desc" in
  let* d_longdesc := h_str p py_res "longdesc" in
  let* d_author := h_str p py_res "author" in
  let* d_email := h_str p py_res "email" in
  let* d_license := h_str p py_res "license" in
  Ok (mk_srd_decoder d_id d_name d_longname d_desc d_longdesc d_author
        d_email d_license py_res).

Definition srd_load_decoder (py_res : pyclass) (st : state)
    : srd_status * state :=
  match read_decoder (py st) py_res with
  | Err r => (r, st)
  | Ok d =>
      (SRD_OK,
       set_list_pds (list_pds st ++ [d])
         (set_errlog (errlog st ++ [Registered (id d)]) st))
  end.

(** The status of [srd_load_decoder] is dropped: the script gets [None]. *)
Definition emb_register (arg : pyclass) (st : state) : pyvalue * state :=
  (PyNone, snd (srd_load_decoder arg st)).

(** ** Scripts at work *)

Definition run_action (a : action) (st : state) : state :=
  match a with
  | Register obj => snd (emb_register obj st)
  | Put arg => snd (emb_put arg st)
  | Exec f => set_py (f (py st)) st
  end.

Definition run_body (body : list action) (st : state) : state :=
  foldl (fun s a => run_action a s) st body.

(** Calling a registered object with the empty tuple: a fresh instance is
    allocated and its constructor runs; the result is the instance when the
    constructor returns. *)
Definition PyObject_Call (callable : pyclass) (st : state)
    : pyresult pyinstance * state :=
  let a := fresh (dom (heap (py st))) in
  let st1 :=
    set_py (mk_interp (<[a := ∅]> (heap (py st))) (py_stdout (py st))) st in
  let '(body, res) := cl_init callable a (py st1) in
  (match res with
   | PyReturn _ => PyReturn (mk_pyinstance a callable)
   | PyRaise => PyRaise
   | PySystemExit status => PySystemExit status
   end,
   run_body body st1).

(** Looks the method up, builds the argument dictionary and calls the
    method on it.  A missing method fails without any call; a call that is
    made is logged, and the method body then runs. *)
Definition PyObject_CallMethod (o : pyinstance) (meth : string)
    (args : call_args) (st : state) : pyresult pyvalue * state :=
  match cl_methods (in_class o) !! meth with
  | None => (PyRaise, st)
  | Some m =>
      let '(body, res) := m (in_dict o) args (py st) in
      (res,
       run_body body
         (set_invoked (invoked st ++ [mk_invocation o meth args]) st))
  end.

(** ** decode.c, continued *)

(** After a failed call the source runs
    [if (PyErr_Occurred()) PyErr_Print();] and returns [ret]: the process
    ends there when the exception is [SystemExit]. *)
Definition print_and_return {A B S : Type} (res : pyresult A) (ret : B)
    (st : S) : outcome B * S :=
  match PyErr_Print res with
  | Some status => (Exits status, st)
  | None => (Returns ret, st)
  end.

Definition srd_instance_new (id0 : string) (st : state)
    : outcome (option srd_decoder_instance) * state :=
  match srd_get_decoder_by_id id0 st with
  | None => (Returns None, st)
  | Some dec =>
      match PyObject_Call (py_decobj dec) st with
      | (PyReturn o, st') =>
          let di := mk_srd_decoder_instance o in
          (Returns (Some di), set_decoders (decoders st' ++ [di]) st')
      | (res, st') => print_and_return res None st'
      end
  end.

Definition srd_instance_set_probe (di : srd_decoder_instance)
    (probename : string) (num : Z) (st : state) : srd_status * state :=
  match PyObject_GetAttrString (py st) (py_instance di) "probes" with
  | None => (SRD_ERR_PYTHON, st)
  | Some probedict =>
      let probenum := PyInt_FromLong num in
      (SRD_OK,
       set_py (snd (PyMapping_SetItemString (py st) probedict probename
                      probenum)) st)
  end.

Fixpoint srd_session_start_loop (d : list srd_decoder_instance)
    (args : call_args) (st : state) : outcome srd_status * state :=
  match d with
  | [] => (Returns SRD_OK, st)
  | di :: d' =>
      match PyObject_CallMethod (py_instance di) "start" args st with
      | (PyReturn _, st') => srd_session_start_loop d' args st'
      | (res, st') => print_and_return res SRD_ERR_PYTHON st'
      end
  end.

Definition start_args (driver : string) (unitsize starttime samplerate : Z)
    : call_args :=
  StartArgs driver (to_long unitsize) (to_long starttime) (to_long samplerate).

Definition srd_session_start (driver : string)
    (unitsize starttime samplerate : Z) (st : state)
    : outcome srd_status * state :=
  srd_session_start_loop (decoders st)
    (start_args driver unitsize starttime samplerate) st.

(** [inbuf] is [None] for a null pointer, else the bytes it points to; the
    ["s#"] conversion reads [inbuflen] of them.  It takes the length as an
    [int]: the data of the call is as in the source for lengths up to
    [INT_MAX]. *)
Definition srd_run_decoder (dec : option srd_decoder_instance)
    (inbuf : option (list byte)) (inbuflen : Z) (st : state)
    : outcome srd_status * state :=
  let st1 :=
    set_timehack
      (to_int (to_uint64 (to_uint64 (_timehack st) + inbuflen))) st in
  match dec with
  | None => (Returns SRD_ERR_ARGS, st1)
  | Some dec =>
      match inbuf with
      | None => (Returns SRD_ERR_ARGS, st1)
      | Some buf =>
          if inbuflen =? 0 then (Returns SRD_ERR_ARGS, st1)
          else
            match
              PyObject_CallMethod (py_instance dec) "decode"
                (DecodeArgs (_timehack st1) 10 (take (Z.to_nat inbuflen) buf))
                st1
            with
            | (PyReturn _, st2) => (Returns SRD_OK, st2)
            | (res, st2) => print_and_return res SRD_ERR_PYTHON st2
            end
      end
  end.

Fixpoint srd_session_feed_loop (d : list srd_decoder_instance)
    (inbuf : option (list byte)) (inbuflen : Z) (st : state)
    : outcome srd_status * state :=
  match d with
  | [] => (Returns SRD_OK, st)
  | di :: d' =>
      match srd_run_decoder (Some di) inbuf inbuflen st with
      | (Exits status, st') => (Exits status, st')
      | (Returns ret, st') =>
          if is_error ret
          then (Exits 1,
                set_errlog (errlog st' ++ [DecoderRuntimeError ret]) st')
          else srd_session_feed_loop d' inbuf inbuflen st'
      end
  end.

Definition srd_session_feed (inbuf : option (list byte)) (inbuflen : Z)
    (st : state) : outcome srd_status * state :=
  srd_session_feed_loop (decoders st) inbuf inbuflen st.

(** ** Sequences of calls *)

(** The module loads of [srd_init], seen from the registry: each object a
    module hands to [sigrok.register], in order. *)
Definition register_all (objs : list pyclass) (st : state) : state :=
  foldl (fun s obj => snd (emb_register obj s)) st objs.

(** A sequence of [srd_instance_new] calls; the instances they return.  It
    ends with the process when a constructor raises [SystemExit]. *)
Fixpoint instances_new (ids : list string) (st : state)
    : list srd_decoder_instance * state :=
  match ids with
  | [] => ([], st)
  | id0 :: ids' =>
      match srd_instance_new id0 st with
      | (Returns r, st1) =>
          let '(created, st2) := instances_new ids' st1 in
          (match r with
           | Some di => di :: created
           | None => created
           end, st2)
      | (Exits _, st1) => ([], st1)
      end
  end.

(** A sequence of feeds, each of a whole buffer; it stops at the first one
    that does not return [SRD_OK]. *)
Fixpoint feed_all (bufs : list (list byte)) (st : state)
    : outcome srd_status * state :=
  match bufs with
  | [] => (Returns SRD_OK, st)
  | buf :: bufs' =>
      match srd_session_feed (Some buf) (Z.of_nat (length buf)) st with
      | (Returns SRD_OK, st') => feed_all bufs' st'
      | other => other
      end
  end.

(** ** Vocabulary of the statements *)

(** The eight attributes [srd_load_decoder] reads. *)
Definition required_fields : list string :=
  ["id"; "name"; "longname"; "desc"; "longdesc"; "author"; "email";
   "license"]%string.

(** The attribute [key] of [obj] is there and is a string. *)
Definition string_attr (obj : pyclass) (key : string) : bool :=
  match cl_attrs obj !! key with
  | Some (PyString _) => true
  | _ => false
  end.

(** A descriptor holds, in each field, the C string of the attribute its
    component supplies. *)
Definition as_supplied (d : srd_decoder) : Prop :=
  let attr key := cl_attrs (py_decobj d) !! key in
  exists s1 s2 s3 s4 s5 s6 s7 s8,
    (attr "id" = Some (PyString s1) /\ id d = c_str s1) /\
    (attr "name" = Some (PyString s2) /\ name d = c_str s2) /\
    (attr "longname" = Some (PyString s3) /\ longname d = c_str s3) /\
    (attr "desc" = Some (PyString s4) /\ desc d = c_str s4) /\
    (attr "longdesc" = Some (PyString s5) /\ longdesc d = c_str s5) /\
    (attr "author" = Some (PyString s6) /\ author d = c_str s6) /\
    (attr "email" = Some (PyString s7) /\ email d = c_str s7) /\
    (attr "license" = Some (PyString s8) /\ license d = c_str s8).

(** What the dictionary at address [a] holds under [key]. *)
Definition dict_lookup (st : state) (a : addr) (key : string)
    : option pyvalue :=
  match heap (py st) !! a with
  | Some d => d !! key
  | None => None
  end.

(** What one [PyObject_CallMethod] adds to the log: the call, when the
    method exists. *)
Definition call_log (o : pyinstance) (meth : string) (args : call_args)
    : list invocation :=
  match cl_methods (in_class o) !! meth with
  | Some _ => [mk_invocation o meth args]
  | None => []
  end.

(** The start calls made on the instances [d], in order. *)
Definition start_calls (d : list srd_decoder_instance) (args : call_args)
    : list invocation :=
  map (fun di => mk_invocation (py_instance di) "start" args) d.

(** The decode calls one feed makes on the instances [d], in order, when
    the counter stands at [t] before the feed. *)
Fixpoint decode_calls (d : list srd_decoder_instance) (t : Z)
    (buf : list byte) (inbuflen : Z) : list invocation :=
  match d with
  | [] => []
  | di :: d' =>
      let t' := to_int (t + inbuflen) in
      mk_invocation (py_instance di) "decode"
        (DecodeArgs t' 10 (take (Z.to_nat inbuflen) buf))
      :: decode_calls d' t' buf inbuflen
  end.

(** The decode calls a sequence of feeds of whole buffers makes on one
    instance, when the counter stands at [t] before the first feed. *)
Fixpoint decode_seq (o : pyinstance) (t : Z) (bufs : list (list byte))
    : list invocation :=
  match bufs with
  | [] => []
  | buf :: bufs' =>
      let t' := to_int (t + Z.of_nat (length buf)) in
      mk_invocation o "decode" (DecodeArgs t' 10 buf) :: decode_seq o t' bufs'
  end.

(** No decode call is made for a null buffer or a zero length. *)
Definition feed_calls (d : list srd_decoder_instance) (t : Z)
    (inbuf : option (list byte)) (inbuflen : Z) : list invocation :=
  match inbuf with
  | None => []
  | Some buf => if inbuflen =? 0 then [] else decode_calls d t buf inbuflen
  end.

(** What one [srd_run_decoder] on [di] adds to the log when the counter
    stands at [t] before it. *)
Definition run_calls (di : srd_decoder_instance) (t : Z)
    (inbuf : option (list byte)) (inbuflen : Z) : list invocation :=
  match inbuf with
  | None => []
  | Some buf =>
      if inbuflen =? 0 then []
      else call_log (py_instance di) "decode"
             (DecodeArgs (to_int (t + inbuflen)) 10
                (take (Z.to_nat inbuflen) buf))
  end.

(** Total length of a sequence of buffers. *)
Definition sum_len (bufs : list (list byte)) : Z :=
  foldr (fun buf acc => Z.of_nat (length buf) + acc) 0 bufs.

(** ** Example decoders *)

Definition returning : method := fun _ _ _ => ([], PyReturn PyNone).

Definition raising : method := fun _ _ _ => ([], PyRaise).

(** [raise SystemExit(3)]. *)
Definition quitting : method := fun _ _ _ => ([], PySystemExit 3).

(** Counts its calls in the attribute [calls] of the instance and raises
    from the second call on. *)
Definition raising_on_second : method := fun self _ p =>
  match heap p !! self with
  | None => ([], PyRaise)
  | Some d =>
      match d !! "calls" with
      | Some _ => ([], PyRaise)
      | None =>
          ([Exec (fun p' =>
                    mk_interp (<[self := <["calls" := PyInt 1]> d]> (heap p'))
                      (py_stdout p'))],
           PyReturn PyNone)
      end
  end.

Definition metadata (i nm : string) : gmap string pyvalue :=
  list_to_map
    [("id", PyString i); ("name", PyString nm); ("longname", PyString "L");
     ("desc", PyString "d"); ("longdesc", PyString "ld");
     ("author", PyString "a"); ("email", PyString "e");
     ("license", PyString "gplv2+")]%string.

(** [__init__] gives the instance a dictionary [probes] of its own. *)
Definition init_probes : addr -> interp -> list action * pyresult unit :=
  fun self _ =>
    ([Exec (fun p =>
              let a := fresh (dom (heap p)) in
              mk_interp
                (<[self := {["probes" := PyDict a]}]> (<[a := ∅]> (heap p)))
                (py_stdout p))],
     PyReturn tt).

(** An [__init__] that does nothing. *)
Definition init_nothing : addr -> interp -> list action * pyresult unit :=
  fun _ _ => ([], PyReturn tt).

Definition methods (start decode : method) : gmap string method :=
  list_to_map [("start", start); ("decode", decode)]%string.

Definition uart : pyclass :=
  mk_pyclass (metadata "uart" "UART") init_probes (methods returning returning).

(** A decoder whose [start] and [decode] raise. *)
Definition broken : pyclass :=
  mk_pyclass (metadata "broken" "Broken") init_probes (methods raising raising).

(** A decoder whose [decode] raises on its second call. *)
Definition flaky : pyclass :=
  mk_pyclass (metadata "flaky" "Flaky") init_probes
    (methods returning raising_on_second).

(** A component with an empty name and a NUL byte inside its long name. *)
Definition odd : pyclass :=
  mk_pyclass
    (<["name" := PyString ""]>
       (<["longname" := PyString ("a" +:+ String Ascii.zero "b")]>
          (metadata "odd" "Odd")))
    init_probes (methods returning returning).

(** A component without a [license] attribute. *)
Definition unlicensed : pyclass :=
  mk_pyclass (delete "license" (metadata "nolic" "NoLic")) init_probes
    (methods returning returning).

(** The state of a fresh process, before any decoder is registered. *)
Definition initial : state := mk_state [] [] 0 (mk_interp ∅ []) [] [].

(** [uart], [broken] and [flaky] registered. *)
Definition loaded : state := register_all [uart; broken; flaky] initial.

(** A session with one [uart] instance. *)
Definition session1 : state := snd (instances_new ["uart"%string] loaded).

(** The instance of [session1]. *)
Definition uart_instance : srd_decoder_instance :=
  mk_srd_decoder_instance (mk_pyinstance 0%nat uart).

(** A session with two [uart] instances. *)
Definition session2 : state :=
  snd (instances_new ["uart"; "uart"]%string loaded).

(** A session with a [uart], a [broken] and another [uart] instance. *)
Definition session3 : state :=
  snd (instances_new ["uart"; "broken"; "uart"]%string loaded).

(** A session with a [uart], a [flaky] and another [uart] instance. *)
Definition session_flaky : state :=
  snd (instances_new ["uart"; "flaky"; "uart"]%string loaded).


Definition flaky_instance : srd_decoder_instance :=
  mk_srd_decoder_instance (mk_pyinstance 2%nat flaky).

Definition uart_instance' : srd_decoder_instance :=
  mk_srd_decoder_instance (mk_pyinstance 4%nat uart).

(** The two-byte buffer of the specification's scenario. *)
Definition sample : list byte := [x55; xaa].

(** ** Discovery *)

(** What the host's surroundings answer during [srd_init]: whether
    [Py_InitModule] succeeds, the result of [PyRun_SimpleString], the entries
    [readdir] lists for [DECODERS_DIR] ([None] when [opendir] fails), and
    what importing a module does, given the modules the host has asked for
    before and the interpreter state: the actions of the module's body up to
    its end or to the exception it raises, and how it ends.  A module that
    is not found, or was loaded before, has the body the interpreter runs
    for it: none. *)
Record environment : Type := mk_environment {
  init_module_ok : bool;
  run_simple_string : Z;
  decoders_dir : option (list string);
  import_module :
    list string -> string -> interp -> list action * pyresult unit
}.

(** The process as [srd_init] sees it: the globals and the interpreter of
    [state], whether the interpreter is initialised, whether the directory
    stream is open, and a ghost log of the modules asked for. *)
Record host : Type := mk_host {
  core : state;
  py_initialized : bool;
  dir_open : bool;
  imported : list string
}.

Definition set_core (st : state) (h : host) : host :=
  mk_host st (py_initialized h) (dir_open h) (imported h).
Definition set_dir_open (b : bool) (h : host) : host :=
  mk_host (core h) (py_initialized h) b (imported h).

(** Does nothing when the interpreter is initialised already. *)
Definition Py_Initialize (h : host) : host :=
  if py_initialized h then h
  else mk_host (set_py (mk_interp ∅ []) (core h)) true (dir_open h)
         (imported h).

(** The interpreter and all its objects are destroyed. *)
Definition Py_Finalize (h : host) : host :=
  mk_host (set_py (mk_interp ∅ []) (core h)) false (dir_open h) (imported h).

Definition strlen (s : string) : nat := String.length s.

Definition g_str_has_suffix (str suffix : string) : bool :=
  let str_len := strlen str in
  let suffix_len := strlen suffix in
  if (str_len <? suffix_len)%nat then false
  else strcmp (String.substring (str_len - suffix_len) suffix_len str) suffix =? 0.

Definition g_strndup (str : string) (n : nat) : string :=
  String.substring 0 n str.

(** The module is asked for and its body runs; the result is NULL when
    the body raised or the module was not found. *)
Definition PyImport_ImportModule (env : environment) (name : string)
    (h : host) : pyresult unit * host :=
  let '(body, res) := import_module env (imported h) name (py (core h)) in
  (res,
   mk_host (run_body body (core h)) (py_initialized h) (dir_open h)
     (imported h ++ [name])).

Fixpoint srd_init_loop (env : environment) (names : list string) (h : host)
    : outcome srd_status * host :=
  match names with
  | [] => (Returns SRD_OK, set_dir_open false h)
  | d_name :: names' =>
      if negb (g_str_has_suffix d_name ".py") then srd_init_loop env names' h
      else
        let decodername := g_strndup d_name (strlen d_name - 3) in
        match PyImport_ImportModule env decodername h with
        | (PyReturn _, h') => srd_init_loop env names' h'
        | (res, h') => print_and_return res SRD_ERR_PYTHON h'
        end
  end.

Definition srd_init (env : environment) (h : host)
    : outcome srd_status * host :=
  let h1 := Py_Initialize h in
  if negb (init_module_ok env) then (Returns SRD_ERR_PYTHON, Py_Finalize h1)
  else if negb (run_simple_string env =? 0)
  then (Returns SRD_ERR_PYTHON, Py_Finalize h1)
  else
    match decoders_dir env with
    | None => (Returns SRD_ERR_DECODERS_DIR, Py_Finalize h1)
    | Some names => srd_init_loop env names (set_dir_open true h1)
    end.

(** ** Further vocabulary *)

Definition INT_MIN : Z := - 2 ^ 31.

(** All eight attributes [srd_load_decoder] reads are strings. *)
Definition valid_candidate (obj : pyclass) : bool :=
  forallb (string_attr obj) required_fields.



(** What the registry and the host's error log gain while scripts run:
    descriptors at the end of the registry, each read from its component,
    and one line per descriptor. *)
Definition registry_grows (st st' : state) : Prop :=
  exists new,
    list_pds st' = list_pds st ++ new
    /\ Forall as_supplied new
    /\ errlog st' = errlog st ++ map (fun d => Registered (id d)) new.



(** ** Further examples *)

(** A decoder whose [probes] dictionary belongs to the class, at address 7,
    and is shared by its instances. *)
Definition spi : pyclass :=
  mk_pyclass (<["probes" := PyDict 7%nat]> (metadata "spi" "SPI"))
    init_nothing (methods returning returning).

Definition spi_instance : srd_decoder_instance :=
  mk_srd_decoder_instance (mk_pyinstance 8%nat spi).

Definition spi_instance' : srd_decoder_instance :=
  mk_srd_decoder_instance (mk_pyinstance 9%nat spi).

(** A session with two [spi] instances, [spi_instance] and
    [spi_instance']. *)
Definition session_spi : state :=
  snd (instances_new ["spi"; "spi"]%string
         (snd (srd_load_decoder spi
                 (set_py (mk_interp {[7%nat := ∅]} []) initial)))).

(** A decoder whose [start] and [decode] raise [SystemExit(3)]. *)
Definition quitter : pyclass :=
  mk_pyclass (metadata "quitter" "Quitter") init_probes
    (methods quitting quitting).

(** A decoder without any [probes] attribute. *)
Definition plain : pyclass :=
  mk_pyclass (metadata "plain" "Plain") init_nothing
    (methods returning returning).

(** A decoder whose [__init__] makes [probes] the attribute table of the
    instance itself ([self.probes = self.__dict__]). *)
Definition selfish : pyclass :=
  mk_pyclass (metadata "selfish" "Selfish")
    (fun self _ =>
       ([Exec (fun p =>
                 mk_interp (<[self := {["probes" := PyDict self]}]> (heap p))
                   (py_stdout p))],
        PyReturn tt))
    (methods returning returning).

(** A decoder whose [decode] registers [odd] before it returns. *)
Definition registering : pyclass :=
  mk_pyclass (metadata "registering" "Registering") init_probes
    (methods returning (fun _ _ _ => ([Register odd], PyReturn PyNone))).

(** [uart], [quitter], [plain], [selfish] and [registering] registered. *)
Definition loaded' : state :=
  register_all [uart; quitter; plain; selfish; registering] initial.

(** A session with a [uart], a [quitter] and another [uart] instance. *)
Definition session_quitter : state :=
  snd (instances_new ["uart"; "quitter"; "uart"]%string loaded').


(** A session with one [plain] instance. *)
Definition session_plain : state :=
  snd (instances_new ["plain"]%string loaded').

Definition plain_instance : srd_decoder_instance :=
  mk_srd_decoder_instance (mk_pyinstance 0%nat plain).

(** A session with one [selfish] instance. *)
Definition session_selfish : state :=
  snd (instances_new ["selfish"]%string loaded').

Definition selfish_instance : srd_decoder_instance :=
  mk_srd_decoder_instance (mk_pyinstance 0%nat selfish).

(** A session with one [registering] instance. *)
Definition session_registering : state :=
  snd (instances_new ["registering"]%string loaded').

Definition registering_instance : srd_decoder_instance :=
  mk_srd_decoder_instance (mk_pyinstance 0%nat registering).

(** A session with five [uart] instances. *)
Definition session5 : state :=
  snd (instances_new ["uart"; "uart"; "uart"; "uart"; "uart"]%string loaded).

(** A buffer of 2^30 bytes. *)
Definition big_sample : list byte := repeat x00 (Z.to_nat (2 ^ 30)).



(** * Properties *)

(** ** Machine integers *)

Lemma mod64_mod32 (a : Z) : (a mod 2 ^ 64) mod 2 ^ 32 = a mod 2 ^ 32.
Proof.
  apply Z.mod_mod_divide. exists (2 ^ 32). reflexivity.
Qed.

Lemma to_int_uint64_add (t n : Z) :
  to_int (to_uint64 (to_uint64 t + n)) = to_int (t + n).
Proof.
  unfold to_int, to_uint64. f_equal.
  rewrite <- (Zplus_mod_idemp_l ((t mod _ + n) mod _)), mod64_mod32.
  rewrite <- (Zplus_mod_idemp_l (t mod _) n), mod64_mod32.
  rewrite !Zplus_mod_idemp_l.
  rewrite <- Z.add_assoc, Zplus_mod_idemp_l. f_equal. lia.
Qed.

Lemma to_int_add_l (a b : Z) : to_int (to_int a + b) = to_int (a + b).
Proof.
  unfold to_int.
  f_equal.
  replace ((a + 2 ^ 31) mod 2 ^ 32 - 2 ^ 31 + b + 2 ^ 31)
    with ((a + 2 ^ 31) mod 2 ^ 32 + b) by lia.
  rewrite Zplus_mod_idemp_l. f_equal. lia.
Qed.

Lemma to_int_small (z : Z) : - 2 ^ 31 <= z <= INT_MAX -> to_int z = z.
Proof.
  unfold to_int, INT_MAX. intros H.
  rewrite Z.mod_small; lia.
Qed.

(** ** C strings *)

Lemma compare_refl (s : string) : String.compare s s = Eq.
Proof.
  pose proof (String.compare_antisym s s) as H.
  destruct (String.compare s s); simpl in H; congruence.
Qed.

Lemma strcmp_eq (a b : string) : (strcmp a b =? 0) = true <-> a = b.
Proof.
  unfold strcmp. split.
  - destruct (String.compare a b) eqn:E; simpl; try discriminate.
    intros _. now apply String.compare_eq_iff.
  - intros ->. now rewrite compare_refl.
Qed.

Lemma strcmp_neq (a b : string) : (strcmp a b =? 0) = false <-> a <> b.
Proof.
  rewrite <- strcmp_eq. destruct (strcmp a b =? 0); split; congruence.
Qed.

(** A string without NUL byte is its own C string. *)
Lemma c_str_id (s : string) : nul_free s = true -> c_str s = s.
Proof.
  induction s as [|c s IH]; simpl; [reflexivity|].
  destruct (Ascii.eqb c Ascii.zero); simpl; [discriminate|].
  intros H. now rewrite IH.
Qed.

(** ** The registry *)

Section Registry.

Variable p : interp.
Variable py_res : pyclass.

Lemma h_str_string (key s : string) :
  cl_attrs py_res !! key = Some (PyString s) ->
  h_str p py_res key = Ok (c_str s).
Proof.
  intros H. unfold h_str, PyObject_GetAttrString, pyclass_attr.
  now rewrite H.
Qed.

Lemma h_str_not_string (key : string) :
  string_attr py_res key = false -> h_str p py_res key = Err SRD_ERR_PYTHON.
Proof.
  unfold string_attr, h_str, PyObject_GetAttrString, pyclass_attr.
  destruct (cl_attrs py_res !! key) as [[]|]; simpl; congruence.
Qed.

(** [h_str] has two results only. *)
Lemma h_str_cases (key : string) :
  (string_attr py_res key = false /\ h_str p py_res key = Err SRD_ERR_PYTHON)
  \/ (exists s, cl_attrs py_res !! key = Some (PyString s)
                /\ h_str p py_res key = Ok (c_str s)).
Proof.
  destruct (string_attr py_res key) eqn:E.
  - right. unfold string_attr in E.
    destruct (cl_attrs py_res !! key) as [[]|] eqn:A; try discriminate.
    eauto using h_str_string.
  - left. auto using h_str_not_string.
Qed.

Lemma read_decoder_error (r : srd_status) :
  read_decoder p py_res = Err r -> r = SRD_ERR_PYTHON.
Proof.
  unfold read_decoder.
  repeat match goal with
         | |- context [h_str p py_res ?k] =>
             destruct (h_str_cases k) as [[_ ->] | (? & _ & ->)];
             cbn [bind]; [congruence|]
         end.
  discriminate.
Qed.

Lemma read_decoder_not_string (key : string) :
  key ∈ required_fields -> string_attr py_res key = false ->
  read_decoder p py_res = Err SRD_ERR_PYTHON.
Proof.
  intros Hin Hkey.
  destruct (read_decoder p py_res) as [d|r] eqn:E.
  - exfalso. revert E. unfold read_decoder.
    assert (Hno : forall s, cl_attrs py_res !! key <> Some (PyString s)).
    { intros s Hs. unfold string_attr in Hkey. now rewrite Hs in Hkey. }
    unfold required_fields in Hin.
    repeat match goal with
           | |- context [h_str p py_res ?k] =>
               destruct (h_str_cases k) as [[_ ->] | (? & ? & ->)];
               cbn [bind]; [discriminate|]
           end.
    set_unfold in Hin. intros _.
    repeat (destruct Hin as [-> | Hin]; [eapply Hno; eassumption|]).
    exact Hin.
  - f_equal. eauto using read_decoder_error.
Qed.

Lemma read_decoder_supplied (d : srd_decoder) :
  read_decoder p py_res = Ok d -> as_supplied d /\ py_decobj d = py_res.
Proof.
  unfold read_decoder.
  repeat match goal with
         | |- context [h_str p py_res ?k] =>
             destruct (h_str_cases k) as [[_ ->] | (? & ? & ->)];
             cbn [bind]; [discriminate|]
         end.
  intros [= <-]. split; [|reflexivity].
  unfold as_supplied; simpl. do 8 eexists. repeat split; eassumption.
Qed.

End Registry.

Lemma get_loop_none (l : list srd_decoder) (q : string) :
  q ∉ map id l -> srd_get_decoder_by_id_loop l q = None.
Proof.
  induction l as [|dec l IH]; simpl; intros H; [reflexivity|].
  apply not_elem_of_cons in H as [Hne Hl].
  destruct (strcmp (id dec) q =? 0) eqn:E.
  - apply strcmp_eq in E. congruence.
  - auto.
Qed.

Lemma get_loop_some (l : list srd_decoder) (q : string) (d : srd_decoder) :
  srd_get_decoder_by_id_loop l q = Some d -> d ∈ l /\ id d = q.
Proof.
  induction l as [|dec l IH]; simpl; [discriminate|].
  destruct (strcmp (id dec) q =? 0) eqn:E.
  - intros [= <-]. apply strcmp_eq in E. split; [left | assumption].
  - intros H. destruct (IH H). split; [now right | assumption].
Qed.

Lemma get_loop_found (l : list srd_decoder) (d : srd_decoder) :
  d ∈ l ->
  exists d', srd_get_decoder_by_id_loop l (id d) = Some d'
             /\ id d' = id d /\ d' ∈ l.
Proof.
  induction l as [|dec l IH]; intros H; [inversion H|]. simpl.
  destruct (strcmp (id dec) (id d) =? 0) eqn:E.
  - apply strcmp_eq in E. exists dec. split; [reflexivity|]. split; [assumption | left].
  - apply elem_of_cons in H as [-> | H].
    + apply strcmp_neq in E. congruence.
    + destruct (IH H) as (d' & Hd' & Hid & Hin).
      exists d'. split; [assumption|]. split; [assumption | now right].
Qed.

(** The first descriptor with a given id is the one found. *)
Lemma get_loop_first (l1 l2 : list srd_decoder) (d : srd_decoder) :
  id d ∉ map id l1 ->
  srd_get_decoder_by_id_loop (l1 ++ d :: l2) (id d) = Some d.
Proof.
  induction l1 as [|dec l1 IH]; simpl; intros H.
  - now rewrite (proj2 (strcmp_eq (id d) (id d)) eq_refl).
  - apply not_elem_of_cons in H as [Hne Hl].
    destruct (strcmp (id dec) (id d) =? 0) eqn:E; [|auto].
    apply strcmp_eq in E. congruence.
Qed.

Lemma load_decoder_cases (obj : pyclass) (st : state) :
  (srd_load_decoder obj st = (SRD_ERR_PYTHON, st))
  \/ (exists d, read_decoder (py st) obj = Ok d
                /\ fst (srd_load_decoder obj st) = SRD_OK
                /\ list_pds (snd (srd_load_decoder obj st)) = list_pds st ++ [d]).
Proof.
  unfold srd_load_decoder.
  destruct (read_decoder (py st) obj) as [d|r] eqn:E.
  - right. exists d. auto.
  - left. apply read_decoder_error in E. now subst.
Qed.

Lemma register_all_supplied (objs : list pyclass) (st : state) :
  Forall as_supplied (list_pds st) ->
  Forall as_supplied (list_pds (register_all objs st)).
Proof.
  revert st. induction objs as [|obj objs IH]; intros st H; [exact H|].
  unfold register_all. simpl. apply IH.
  destruct (load_decoder_cases obj st) as [-> | (d & Hd & _ & ->)];
    [exact H|].
  apply Forall_app. split; [exact H|].
  apply Forall_singleton. now apply read_decoder_supplied in Hd.
Qed.

(** C4, as amended.  When one of the eight attributes [srd_load_decoder]
    reads is missing from the candidate object or is not a string, the call
    returns [SRD_ERR_PYTHON], the code of the specification's error kind
    SCRIPT, and leaves the whole state as it was: no descriptor is appended
    to the registry. *)
Theorem load_decoder_rejects (obj : pyclass) (key : string) (st : state) :
  key ∈ required_fields ->
  string_attr obj key = false ->
  srd_load_decoder obj st = (SRD_ERR_PYTHON, st)
  /\ kind_of (fst (srd_load_decoder obj st)) = Some SCRIPT
  /\ list_pds (snd (srd_load_decoder obj st)) = list_pds st.
Proof.
  intros Hin Hkey.
  assert (E : srd_load_decoder obj st = (SRD_ERR_PYTHON, st)).
  { unfold srd_load_decoder.
    now rewrite (read_decoder_not_string (py st) obj key Hin Hkey). }
  rewrite E. auto.
Qed.

Lemma load_decoder_rejects_witness :
  string_attr unlicensed "license" = false
  /\ srd_load_decoder unlicensed initial = (SRD_ERR_PYTHON, initial)
  /\ kind_of (fst (srd_load_decoder unlicensed initial)) = Some SCRIPT
  /\ list_pds (snd (srd_load_decoder unlicensed initial)) = list_pds initial.
Proof.
  split; [reflexivity|].
  apply (load_decoder_rejects unlicensed "license" initial).
  - apply (bool_decide_unpack _). vm_compute. exact I.
  - reflexivity.
Defined.

(** C4 as stated fails: a candidate without [license] is rejected with
    [SRD_ERR_PYTHON], whose kind is SCRIPT and not SCRIPT_METADATA. *)
Lemma load_decoder_not_script_metadata :
  string_attr unlicensed "license" = false
  /\ fst (srd_load_decoder unlicensed initial) = SRD_ERR_PYTHON
  /\ kind_of (fst (srd_load_decoder unlicensed initial))
     <> Some SCRIPT_METADATA.
Proof.
  split; [reflexivity|]. split; [reflexivity|].
  vm_compute. discriminate.
Qed.

(** C6.  For an id that no descriptor of the registry carries,
    [srd_get_decoder_by_id] finds nothing and [srd_instance_new] returns
    NULL with the state untouched: no instance is created, the list of
    active instances and the registry are as before. *)
Theorem instance_new_unregistered (id0 : string) (st : state) :
  id0 ∉ map id (list_pds st) ->
  srd_get_decoder_by_id id0 st = None
  /\ srd_instance_new id0 st = (Returns None, st).
Proof.
  intros H.
  assert (E : srd_get_decoder_by_id id0 st = None)
    by now apply get_loop_none.
  unfold srd_instance_new. now rewrite E.
Qed.

Lemma instance_new_unregistered_witness :
  srd_get_decoder_by_id "nonexistent" loaded = None
  /\ srd_instance_new "nonexistent" loaded = (Returns None, loaded).
Proof.
  apply (instance_new_unregistered "nonexistent" loaded).
  apply (bool_decide_unpack _). vm_compute. exact I.
Defined.

Lemma register_all_from (objs : list pyclass) (st : state) (d : srd_decoder) :
  d ∈ list_pds (register_all objs st) ->
  d ∈ list_pds st \/ py_decobj d ∈ objs.
Proof.
  revert st. induction objs as [|obj objs IH]; intros st H; [now left|].
  unfold register_all in H. simpl in H. apply IH in H as [H | H].
  - destruct (load_decoder_cases obj st) as [E | (d0 & Hd0 & _ & E)];
      rewrite E in H; [now left|].
    apply elem_of_app in H as [H | H]; [now left|].
    apply list_elem_of_singleton in H as ->.
    apply read_decoder_supplied in Hd0 as [_ ->]. right. left.
  - right. now right.
Qed.

(** C8, as amended.  In a registry filled by any sequence of
    [sigrok.register] calls, [srd_get_decoder_by_id] applied to the id of a
    registered descriptor returns a registered descriptor with that id,
    registered for one of the candidate objects, each of whose eight fields
    is the C string (the bytes before the first NUL) of the string its
    component supplies; nothing makes these fields non-empty.  It is the
    descriptor itself when no earlier one has the same id.  For an id that
    no descriptor carries the result is NULL. *)
Theorem get_decoder_by_id_registered (objs : list pyclass) (st0 : state) :
  list_pds st0 = [] ->
  let st := register_all objs st0 in
  (forall d, d ∈ list_pds st ->
     exists d', srd_get_decoder_by_id (id d) st = Some d'
                /\ id d' = id d /\ d' ∈ list_pds st
                /\ py_decobj d' ∈ objs /\ as_supplied d')
  /\ (forall l1 d l2, list_pds st = l1 ++ d :: l2 -> id d ∉ map id l1 ->
        srd_get_decoder_by_id (id d) st = Some d)
  /\ (forall q, q ∉ map id (list_pds st) -> srd_get_decoder_by_id q st = None).
Proof.
  intros Hempty st.
  assert (Hall : Forall as_supplied (list_pds st)).
  { apply register_all_supplied. rewrite Hempty. constructor. }
  split; [|split].
  - intros d Hd.
    destruct (get_loop_found _ _ Hd) as (d' & Hget & Hid & Hin).
    exists d'. repeat split; try assumption.
    + destruct (register_all_from objs st0 d' Hin) as [H | H]; [|exact H].
      rewrite Hempty in H. inversion H.
    + rewrite Forall_forall in Hall. auto.
  - intros l1 d l2 E Hfirst. unfold srd_get_decoder_by_id, srd_list_decoders.
    rewrite E. now apply get_loop_first.
  - intros q Hq. now apply get_loop_none.
Qed.

Lemma get_decoder_by_id_registered_witness :
  let st := register_all [uart; broken; flaky] initial in
  (forall d, d ∈ list_pds st ->
     exists d', srd_get_decoder_by_id (id d) st = Some d'
                /\ id d' = id d /\ d' ∈ list_pds st
                /\ py_decobj d' ∈ [uart; broken; flaky] /\ as_supplied d')
  /\ (forall l1 d l2, list_pds st = l1 ++ d :: l2 -> id d ∉ map id l1 ->
        srd_get_decoder_by_id (id d) st = Some d)
  /\ (forall q, q ∉ map id (list_pds st) -> srd_get_decoder_by_id q st = None).
Proof.
  apply (get_decoder_by_id_registered [uart; broken; flaky] initial).
  reflexivity.
Defined.

(** C8 as stated fails: [odd] registers with success although its name is
    empty, and its long name is stored cut at the NUL byte; the descriptor
    found under its id has neither a non-empty name nor the long name as
    supplied. *)
Lemma get_decoder_by_id_empty_name :
  let st := snd (srd_load_decoder odd initial) in
  fst (srd_load_decoder odd initial) = SRD_OK
  /\ cl_attrs odd !! "name" = Some (PyString "")
  /\ cl_attrs odd !! "longname" = Some (PyString ("a" +:+ String Ascii.zero "b"))
  /\ (exists d, srd_get_decoder_by_id "odd" st = Some d
                /\ name d = "" /\ longname d = "a")
  /\ ~ (exists d, srd_get_decoder_by_id "odd" st = Some d
                  /\ id d = "odd" /\ name d <> ""
                  /\ cl_attrs odd !! "longname" = Some (PyString (longname d))).
Proof.
  assert (E : exists d, srd_get_decoder_by_id "odd"
                          (snd (srd_load_decoder odd initial)) = Some d
                        /\ name d = "" /\ longname d = "a").
  { exists (mk_srd_decoder "odd" "" "a" "d" "ld" "a" "e" "gplv2+" odd).
    repeat split; reflexivity. }
  split; [reflexivity|]. split; [reflexivity|]. split; [reflexivity|].
  split; [exact E|].
  destruct E as (d & Hd & Hname & _).
  intros (d' & Hd' & _ & Hne & _). rewrite Hd in Hd'. congruence.
Qed.

(** ** Probes *)

Lemma getattr_probes_stable (o : pyinstance) (p : interp) (a : addr)
    (d : gmap string pyvalue) (key : string) (v : pyvalue) :
  PyObject_GetAttrString p o "probes" = Some (PyDict a) ->
  heap p !! a = Some d ->
  a <> in_dict o \/ key <> "probes" ->
  PyObject_GetAttrString (mk_interp (<[a := <[key := v]> d]> (heap p)) (py_stdout p))
    o "probes" = Some (PyDict a).
Proof.
  unfold PyObject_GetAttrString, pyinstance_attr. simpl. intros H Hd Hside.
  destruct (decide (a = in_dict o)) as [->|Hne].
  - rewrite lookup_insert_eq. rewrite Hd in H.
    destruct Hside as [Hside | Hside]; [congruence|].
    now rewrite lookup_insert_ne.
  - now rewrite lookup_insert_ne.
Qed.





(** ** Scripts and method calls *)

Lemma registry_grows_same (st st' : state) :
  list_pds st' = list_pds st -> errlog st' = errlog st ->
  registry_grows st st'.
Proof.
  intros Hl He. exists []. simpl. rewrite !app_nil_r. auto.
Qed.

Lemma registry_grows_refl (st : state) : registry_grows st st.
Proof.
  now apply registry_grows_same.
Qed.

Lemma registry_grows_trans (st1 st2 st3 : state) :
  registry_grows st1 st2 -> registry_grows st2 st3 -> registry_grows st1 st3.
Proof.
  intros (n1 & L1 & F1 & E1) (n2 & L2 & F2 & E2). exists (n1 ++ n2).
  rewrite L2, L1, E2, E1, map_app, <- !app_assoc.
  split; [reflexivity|]. split; [|reflexivity]. apply Forall_app. auto.
Qed.

(** A script changes neither the instance list nor the counter nor the call
    log; the registry can only grow. *)
Lemma run_action_frame (a : action) (st : state) :
  decoders (run_action a st) = decoders st
  /\ _timehack (run_action a st) = _timehack st
  /\ invoked (run_action a st) = invoked st
  /\ registry_grows st (run_action a st).
Proof.
  destruct a as [obj|arg|f]; simpl;
    [|repeat split; now apply registry_grows_same..].
  unfold srd_load_decoder.
  destruct (read_decoder (py st) obj) as [d|e] eqn:Hd; simpl;
    auto using registry_grows_refl.
  repeat split. exists [d]. split; [reflexivity|]. split; [|reflexivity].
  apply Forall_singleton. now apply read_decoder_supplied in Hd.
Qed.

Lemma run_body_frame (body : list action) (st : state) :
  decoders (run_body body st) = decoders st
  /\ _timehack (run_body body st) = _timehack st
  /\ invoked (run_body body st) = invoked st
  /\ registry_grows st (run_body body st).
Proof.
  revert st. induction body as [|a body IH]; intros st.
  - simpl. auto using registry_grows_refl.
  - change (run_body (a :: body) st) with (run_body body (run_action a st)).
    destruct (IH (run_action a st)) as (Hd & Ht & Hi & Hg).
    destruct (run_action_frame a st) as (Hd0 & Ht0 & Hi0 & Hg0).
    split; [congruence|]. split; [congruence|]. split; [congruence|].
    eauto using registry_grows_trans.
Qed.

Lemma call_method_frame (o : pyinstance) (meth : string) (args : call_args)
    (st : state) :
  let r := PyObject_CallMethod o meth args st in
  decoders (snd r) = decoders st
  /\ _timehack (snd r) = _timehack st
  /\ invoked (snd r) = invoked st ++ call_log o meth args
  /\ registry_grows st (snd r).
Proof.
  unfold PyObject_CallMethod, call_log.
  destruct (cl_methods (in_class o) !! meth) as [m|]; simpl.
  - destruct (m (in_dict o) args (py st)) as [body res]. simpl.
    destruct (run_body_frame body
                (set_invoked (invoked st ++ [mk_invocation o meth args]) st))
      as (Hd & Ht & Hi & Hg).
    auto.
  - rewrite app_nil_r. auto using registry_grows_refl.
Qed.

(** A call that returns a value was made. *)
Lemma call_method_some (o : pyinstance) (meth : string) (args : call_args)
    (st : state) (v : pyvalue) :
  fst (PyObject_CallMethod o meth args st) = PyReturn v ->
  call_log o meth args = [mk_invocation o meth args].
Proof.
  unfold PyObject_CallMethod, call_log.
  destruct (cl_methods (in_class o) !! meth); [reflexivity | discriminate].
Qed.

Lemma call_log_short (o : pyinstance) (meth : string) (args : call_args) :
  (length (call_log o meth args) <= 1)%nat
  /\ Forall (fun c => inv_self c = o) (call_log o meth args).
Proof.
  unfold call_log. destruct (cl_methods (in_class o) !! meth); simpl.
  - split; [lia|]. repeat constructor.
  - split; [lia|]. constructor.
Qed.

(** ** Starting a session *)

(** One turn of the loop of [srd_session_start]. *)
Lemma start_loop_cons (di : srd_decoder_instance)
    (d : list srd_decoder_instance) (args : call_args) (st : state) :
  let c := PyObject_CallMethod (py_instance di) "start" args st in
  srd_session_start_loop (di :: d) args st
  = match fst c with
    | PyReturn _ => srd_session_start_loop d args (snd c)
    | PyRaise => (Returns SRD_ERR_PYTHON, snd c)
    | PySystemExit status => (Exits status, snd c)
    end.
Proof.
  simpl.
  destruct (PyObject_CallMethod (py_instance di) "start" args st)
    as [[v| |status] st']; reflexivity.
Qed.


Lemma start_loop_spec (d : list srd_decoder_instance) (args : call_args)
    (st : state) :
  let r := srd_session_start_loop d args st in
  decoders (snd r) = decoders st
  /\ _timehack (snd r) = _timehack st
  /\ registry_grows st (snd r)
  /\ (forall c, fst r = Returns c -> c = SRD_OK \/ c = SRD_ERR_PYTHON)
  /\ (fst r = Returns SRD_OK ->
      invoked (snd r) = invoked st ++ start_calls d args)
  /\ (fst r <> Returns SRD_OK ->
      exists pre di post st1,
        d = pre ++ di :: post
        /\ srd_session_start_loop pre args st = (Returns SRD_OK, st1)
        /\ (forall v, fst (PyObject_CallMethod (py_instance di) "start" args st1)
                      <> PyReturn v)
        /\ snd r = snd (PyObject_CallMethod (py_instance di) "start" args st1)
        /\ invoked (snd r)
           = invoked st ++ start_calls pre args
             ++ call_log (py_instance di) "start" args).
Proof.
  revert st. induction d as [|di d IH]; intros st.
  - simpl. rewrite app_nil_r.
    repeat split; auto using registry_grows_refl.
    + intros c [= <-]. auto.
    + intros H. now destruct H.
  - cbv zeta. rewrite start_loop_cons.
    pose proof (call_method_frame (py_instance di) "start" args st)
      as (Hd & Ht & Hi & Hg).
    pose proof (call_method_some (py_instance di) "start" args st) as Hsome.
    destruct (fst (PyObject_CallMethod (py_instance di) "start" args st))
      as [v| |status] eqn:E.
    + destruct (IH (snd (PyObject_CallMethod (py_instance di) "start" args st)))
        as (Hd' & Ht' & Hg' & Hc' & Hok' & Hfail').
      split; [congruence|]. split; [congruence|].
      split; [eauto using registry_grows_trans|]. split; [exact Hc'|].
      split.
      * intros H. rewrite (Hok' H), Hi, (Hsome v eq_refl), <- app_assoc.
        reflexivity.
      * intros H.
        destruct (Hfail' H) as (pre & dj & post & st1 & -> & Hpre & Hno & Hs & Hv).
        exists (di :: pre), dj, post, st1.
        split; [reflexivity|]. split.
        { rewrite start_loop_cons, E. exact Hpre. }
        split; [exact Hno|]. split; [exact Hs|].
        rewrite Hv, Hi, (Hsome v eq_refl), <- !app_assoc. reflexivity.
    + simpl. split; [exact Hd|]. split; [exact Ht|]. split; [exact Hg|].
      split; [intros c [= <-]; auto|]. split; [discriminate|].
      intros _. exists [], di, d, st.
      split; [reflexivity|]. split; [reflexivity|].
      split; [rewrite E; discriminate|]. split; [reflexivity|].
      rewrite Hi. reflexivity.
    + simpl. split; [exact Hd|]. split; [exact Ht|]. split; [exact Hg|].
      split; [discriminate|]. split; [discriminate|].
      intros _. exists [], di, d, st.
      split; [reflexivity|]. split; [reflexivity|].
      split; [rewrite E; discriminate|]. split; [reflexivity|].
      rewrite Hi. reflexivity.
Qed.




(** ** Feeding a session *)

(** A null buffer or a zero length is refused before any call. *)
Lemma run_decoder_args (di : srd_decoder_instance)
    (inbuf : option (list byte)) (n : Z) (st : state) :
  inbuf = None \/ n = 0 ->
  srd_run_decoder (Some di) inbuf n st
  = (Returns SRD_ERR_ARGS, set_timehack (to_int (_timehack st + n)) st).
Proof.
  unfold srd_run_decoder. rewrite to_int_uint64_add.
  intros [-> | ->]; [reflexivity|].
  destruct inbuf; reflexivity.
Qed.

(** With a buffer and a length that is not zero, the decode method is
    called with the counter as already advanced. *)
Lemma run_decoder_call (di : srd_decoder_instance) (buf : list byte) (n : Z)
    (st : state) :
  n <> 0 ->
  let c :=
    PyObject_CallMethod (py_instance di) "decode"
      (DecodeArgs (to_int (_timehack st + n)) 10 (take (Z.to_nat n) buf))
      (set_timehack (to_int (_timehack st + n)) st) in
  srd_run_decoder (Some di) (Some buf) n st
  = match fst c with
    | PyReturn _ => (Returns SRD_OK, snd c)
    | PyRaise => (Returns SRD_ERR_PYTHON, snd c)
    | PySystemExit status => (Exits status, snd c)
    end.
Proof.
  intros Hn. unfold srd_run_decoder. rewrite to_int_uint64_add.
  apply Z.eqb_neq in Hn. rewrite Hn. simpl.
  match goal with
  | |- context [PyObject_CallMethod ?o ?m ?a ?s] =>
      destruct (PyObject_CallMethod o m a s) as [[v| |status] st2]
  end; reflexivity.
Qed.

Lemma run_decoder_frame (di : srd_decoder_instance)
    (inbuf : option (list byte)) (n : Z) (st : state) :
  let r := srd_run_decoder (Some di) inbuf n st in
  decoders (snd r) = decoders st
  /\ _timehack (snd r) = to_int (_timehack st + n)
  /\ registry_grows st (snd r)
  /\ invoked (snd r) = invoked st ++ run_calls di (_timehack st) inbuf n.
Proof.
  destruct inbuf as [buf|]; [destruct (Z.eq_dec n 0) as [->|Hn]|].
  - rewrite run_decoder_args by auto. simpl. rewrite app_nil_r.
    repeat split. now apply registry_grows_same.
  - cbv zeta. rewrite run_decoder_call by assumption.
    unfold run_calls. rewrite (proj2 (Z.eqb_neq n 0) Hn).
    match goal with
    | |- context [PyObject_CallMethod ?o ?m ?a ?s] =>
        pose proof (call_method_frame o m a s) as (H1 & H2 & H3 & H4);
        destruct (fst (PyObject_CallMethod o m a s))
    end; simpl in *;
      (split; [exact H1|]; split; [exact H2|]; split; [|exact H3];
       refine (registry_grows_trans _ _ _ _ H4);
       now apply registry_grows_same).
  - rewrite run_decoder_args by auto. simpl. rewrite app_nil_r.
    repeat split. now apply registry_grows_same.
Qed.

Lemma run_decoder_codes (di : srd_decoder_instance)
    (inbuf : option (list byte)) (n : Z) (st : state) (c : srd_status) :
  fst (srd_run_decoder (Some di) inbuf n st) = Returns c ->
  c = SRD_OK \/ c = SRD_ERR_ARGS \/ c = SRD_ERR_PYTHON.
Proof.
  destruct inbuf as [buf|]; [destruct (Z.eq_dec n 0) as [->|Hn]|].
  - rewrite run_decoder_args by auto. intros [= <-]. auto.
  - rewrite run_decoder_call by assumption.
    match goal with
    | |- context [PyObject_CallMethod ?o ?m ?a ?s] =>
        destruct (fst (PyObject_CallMethod o m a s))
    end; simpl; intros [= <-]; auto.
  - rewrite run_decoder_args by auto. intros [= <-]. auto.
Qed.

(** A run that returns [SRD_OK] had valid arguments and made its call. *)
Lemma run_decoder_ok (di : srd_decoder_instance) (inbuf : option (list byte))
    (n : Z) (st : state) :
  fst (srd_run_decoder (Some di) inbuf n st) = Returns SRD_OK ->
  exists buf,
    inbuf = Some buf /\ n <> 0
    /\ run_calls di (_timehack st) inbuf n
       = [mk_invocation (py_instance di) "decode"
            (DecodeArgs (to_int (_timehack st + n)) 10
               (take (Z.to_nat n) buf))].
Proof.
  intros H. destruct inbuf as [buf|]; [destruct (Z.eq_dec n 0) as [->|Hn]|].
  - rewrite run_decoder_args in H by auto. discriminate H.
  - exists buf. split; [reflexivity|]. split; [assumption|].
    rewrite run_decoder_call in H by assumption.
    unfold run_calls. rewrite (proj2 (Z.eqb_neq n 0) Hn).
    match type of H with
    | context [PyObject_CallMethod ?o ?m ?a ?s] =>
        pose proof (call_method_some o m a s) as Hsome;
        destruct (fst (PyObject_CallMethod o m a s)) as [v| |status]
    end; simpl in H; [eauto | discriminate H | discriminate H].
  - rewrite run_decoder_args in H by auto. discriminate H.
Qed.

Lemma run_calls_short (di : srd_decoder_instance) (t : Z)
    (inbuf : option (list byte)) (n : Z) :
  (length (run_calls di t inbuf n) <= 1)%nat
  /\ Forall (fun c => inv_self c = py_instance di) (run_calls di t inbuf n).
Proof.
  unfold run_calls.
  destruct inbuf as [buf|]; [destruct (n =? 0)|];
    try apply call_log_short; simpl; split; auto; lia.
Qed.

(** One turn of the loop of [srd_session_feed]. *)
Lemma feed_loop_cons (di : srd_decoder_instance)
    (d : list srd_decoder_instance) (inbuf : option (list byte)) (n : Z)
    (st : state) :
  let f := srd_run_decoder (Some di) inbuf n st in
  srd_session_feed_loop (di :: d) inbuf n st
  = match fst f with
    | Exits status => (Exits status, snd f)
    | Returns ret =>
        if is_error ret
        then (Exits 1,
              set_errlog (errlog (snd f) ++ [DecoderRuntimeError ret]) (snd f))
        else srd_session_feed_loop d inbuf n (snd f)
    end.
Proof.
  cbn [srd_session_feed_loop].
  destruct (srd_run_decoder (Some di) inbuf n st) as [[ret|status] st'];
    reflexivity.
Qed.

Lemma is_error_false (ret : srd_status) :
  is_error ret = false -> ret = SRD_OK.
Proof.
  destruct ret; simpl; congruence.
Qed.

Lemma is_error_true (ret : srd_status) :
  ret <> SRD_OK -> is_error ret = true.
Proof.
  destruct ret; simpl; congruence.
Qed.

Lemma feed_loop_app (pre rest : list srd_decoder_instance)
    (inbuf : option (list byte)) (n : Z) (st : state) :
  srd_session_feed_loop (pre ++ rest) inbuf n st =
  match srd_session_feed_loop pre inbuf n st with
  | (Returns _, st1) => srd_session_feed_loop rest inbuf n st1
  | other => other
  end.
Proof.
  revert st. induction pre as [|di pre IH]; intros st.
  - reflexivity.
  - change ((di :: pre) ++ rest) with (di :: (pre ++ rest)).
    rewrite !feed_loop_cons.
    destruct (fst (srd_run_decoder (Some di) inbuf n st)) as [ret|status];
      [|reflexivity].
    destruct (is_error ret); [reflexivity | apply IH].
Qed.

Lemma feed_calls_nil (t : Z) (inbuf : option (list byte)) (n : Z) :
  feed_calls [] t inbuf n = [].
Proof.
  unfold feed_calls. destruct inbuf; [destruct (n =? 0)|]; reflexivity.
Qed.

Lemma feed_calls_cons (di : srd_decoder_instance)
    (d : list srd_decoder_instance) (t : Z) (buf : list byte) (n : Z) :
  n <> 0 ->
  feed_calls (di :: d) t (Some buf) n
  = mk_invocation (py_instance di) "decode"
      (DecodeArgs (to_int (t + n)) 10 (take (Z.to_nat n) buf))
    :: feed_calls d (to_int (t + n)) (Some buf) n.
Proof.
  intros Hn. unfold feed_calls. apply Z.eqb_neq in Hn. now rewrite Hn.
Qed.

(** The loop of [srd_session_feed]: either every run returns [SRD_OK] and
    the loop returns [SRD_OK], or the loop ends the process at the first
    run that does not. *)
Lemma feed_loop_spec (d : list srd_decoder_instance)
    (inbuf : option (list byte)) (n : Z) (st : state) :
  let r := srd_session_feed_loop d inbuf n st in
  decoders (snd r) = decoders st
  /\ (forall c, fst r = Returns c -> c = SRD_OK)
  /\ (fst r = Returns SRD_OK ->
      invoked (snd r) = invoked st ++ feed_calls d (_timehack st) inbuf n
      /\ (d <> [] ->
          _timehack (snd r)
          = to_int (_timehack st + Z.of_nat (length d) * n)))
  /\ (fst r <> Returns SRD_OK ->
      exists pre di post st1,
        d = pre ++ di :: post
        /\ srd_session_feed_loop pre inbuf n st = (Returns SRD_OK, st1)
        /\ fst (srd_run_decoder (Some di) inbuf n st1) <> Returns SRD_OK
        /\ (exists code, fst r = Exits code)
        /\ invoked (snd r)
           = invoked st ++ feed_calls pre (_timehack st) inbuf n
             ++ run_calls di (_timehack st1) inbuf n).
Proof.
  revert st. induction d as [|di d IH]; intros st.
  - simpl. rewrite feed_calls_nil, app_nil_r.
    repeat split; try congruence; try (intros H; now destruct H).
  - cbv zeta. rewrite feed_loop_cons.
    pose proof (run_decoder_frame di inbuf n st) as (Hdec & Ht & _ & Hlog).
    pose proof (run_decoder_ok di inbuf n st) as Hok.
    assert (Hstop : forall (o : outcome srd_status) (s : state),
               fst (srd_run_decoder (Some di) inbuf n st) <> Returns SRD_OK ->
               invoked s
               = invoked (snd (srd_run_decoder (Some di) inbuf n st)) ->
               (exists code, o = Exits code) ->
               exists pre dj post st1,
                 di :: d = pre ++ dj :: post
                 /\ srd_session_feed_loop pre inbuf n st = (Returns SRD_OK, st1)
                 /\ fst (srd_run_decoder (Some dj) inbuf n st1)
                    <> Returns SRD_OK
                 /\ (exists code, o = Exits code)
                 /\ invoked s
                    = invoked st ++ feed_calls pre (_timehack st) inbuf n
                      ++ run_calls dj (_timehack st1) inbuf n).
    { intros o s Hne Hinv Hex. exists [], di, d, st.
      split; [reflexivity|]. split; [reflexivity|]. split; [exact Hne|].
      split; [exact Hex|]. rewrite feed_calls_nil, Hinv, Hlog. reflexivity. }
    destruct (fst (srd_run_decoder (Some di) inbuf n st)) as [ret|status]
      eqn:E.
    + destruct (is_error ret) eqn:Herr.
      * cbn [fst snd]. split; [exact Hdec|]. split; [discriminate|].
        split; [discriminate|]. intros _. apply Hstop; eauto.
        intros [= ->]. discriminate Herr.
      * apply is_error_false in Herr. subst ret.
        destruct (Hok eq_refl) as (buf & -> & Hn & Hcall).
        destruct (IH (snd (srd_run_decoder (Some di) (Some buf) n st)))
          as (Hdec' & Hc' & Hok' & Hfail').
        split; [congruence|]. split; [exact Hc'|]. split.
        -- intros H. destruct (Hok' H) as [Hinv Htime].
           rewrite Hinv, Hlog, Hcall, Ht, feed_calls_cons, <- app_assoc
             by assumption.
           split; [reflexivity|]. intros _.
           destruct d as [|di' d'].
           ++ simpl in *. rewrite Ht. f_equal. lia.
           ++ rewrite (Htime ltac:(discriminate)), Ht, to_int_add_l.
              f_equal. simpl length. lia.
        -- intros H.
           destruct (Hfail' H)
             as (pre & dj & post & st1 & -> & Hpre & Hno & Hex & Hv).
           exists (di :: pre), dj, post, st1.
           split; [reflexivity|]. split.
           { rewrite feed_loop_cons, E. exact Hpre. }
           split; [exact Hno|]. split; [exact Hex|].
           rewrite Hv, Hlog, Hcall, Ht, feed_calls_cons, <- !app_assoc
             by assumption.
           reflexivity.
    + cbn [fst snd]. split; [exact Hdec|]. split; [discriminate|].
      split; [discriminate|]. intros _. apply Hstop; eauto; discriminate.
Qed.

(** C1, as amended.  A feed with a null buffer or a zero length calls the
    decode method of no instance and leaves the interpreter as it was.
    With no active instance it returns [SRD_OK] and changes nothing.  With
    at least one, [srd_run_decoder] on the first instance reports
    [SRD_ERR_ARGS], after advancing the counter, and the feed ends the
    process with exit status 1 after logging that code; it does not return
    the code. *)
Theorem feed_invalid_arguments (inbuf : option (list byte)) (n : Z)
    (st : state) :
  inbuf = None \/ n = 0 ->
  let r := srd_session_feed inbuf n st in
  invoked (snd r) = invoked st
  /\ py (snd r) = py st
  /\ match decoders st with
     | [] => r = (Returns SRD_OK, st)
     | di :: _ =>
         fst (srd_run_decoder (Some di) inbuf n st) = Returns SRD_ERR_ARGS
         /\ outcome_kind (fst (srd_run_decoder (Some di) inbuf n st))
            = Some ARGS
         /\ r = (Exits 1,
                 set_errlog (errlog st ++ [DecoderRuntimeError SRD_ERR_ARGS])
                   (set_timehack (to_int (_timehack st + n)) st))
     end.
Proof.
  intros Hargs. unfold srd_session_feed.
  destruct (decoders st) as [|di d].
  - simpl. auto.
  - rewrite feed_loop_cons.
    rewrite (run_decoder_args di inbuf n st Hargs). simpl. auto.
Qed.

Lemma feed_invalid_arguments_witness :
  let r := srd_session_feed None 2 session3 in
  invoked (snd r) = invoked session3
  /\ py (snd r) = py session3
  /\ match decoders session3 with
     | [] => r = (Returns SRD_OK, session3)
     | di :: _ =>
         fst (srd_run_decoder (Some di) None 2 session3)
         = Returns SRD_ERR_ARGS
         /\ outcome_kind (fst (srd_run_decoder (Some di) None 2 session3))
            = Some ARGS
         /\ r = (Exits 1,
                 set_errlog
                   (errlog session3 ++ [DecoderRuntimeError SRD_ERR_ARGS])
                   (set_timehack (to_int (_timehack session3 + 2)) session3))
     end.
Proof.
  refine (feed_invalid_arguments None 2 session3 _).
  left. reflexivity.
Defined.

(** C1 as stated fails: with no active instance a feed of a null buffer
    returns [SRD_OK], and with one it ends the process; in neither case is
    [SRD_ERR_ARGS] returned. *)
Lemma feed_null_not_args :
  decoders initial = []
  /\ srd_session_feed None 2 initial = (Returns SRD_OK, initial)
  /\ fst (srd_session_feed None 2 initial) <> Returns SRD_ERR_ARGS
  /\ decoders session1 = [uart_instance]
  /\ fst (srd_session_feed None 2 session1) = Exits 1
  /\ fst (srd_session_feed None 2 session1) <> Returns SRD_ERR_ARGS.
Proof.
  assert (E0 : srd_session_feed None 2 initial = (Returns SRD_OK, initial))
    by reflexivity.
  assert (E1 : fst (srd_session_feed None 2 session1) = Exits 1)
    by reflexivity.
  split; [reflexivity|]. split; [exact E0|].
  split; [rewrite E0; intros H; discriminate H|].
  split; [reflexivity|]. split; [exact E1|].
  rewrite E1. intros H. discriminate H.
Qed.

(** C3.  When the feed has gone through the instances before the i-th one
    and [srd_run_decoder] does not return [SRD_OK] on the i-th,
    [srd_session_feed] ends the process in the state that failing run left:
    with exit status 1, after logging the code, when the run returned an
    error code, and with the exit status of the exception, logging nothing,
    when the decode method raised [SystemExit].  The log of calls holds the
    decode calls of the earlier instances and then what the failing run
    added, which is at most one call, on the i-th instance: no later
    instance is invoked. *)
Theorem feed_fails_fast (pre post : list srd_decoder_instance)
    (di : srd_decoder_instance) (inbuf : option (list byte)) (n : Z)
    (st st1 : state) :
  decoders st = pre ++ di :: post ->
  srd_session_feed_loop pre inbuf n st = (Returns SRD_OK, st1) ->
  fst (srd_run_decoder (Some di) inbuf n st1) <> Returns SRD_OK ->
  let f := srd_run_decoder (Some di) inbuf n st1 in
  let r := srd_session_feed inbuf n st in
  (exists code, fst r = Exits code)
  /\ (forall ret, fst f = Returns ret ->
      r = (Exits 1,
           set_errlog (errlog (snd f) ++ [DecoderRuntimeError ret]) (snd f)))
  /\ (forall status, fst f = Exits status -> r = (Exits status, snd f))
  /\ invoked st1 = invoked st ++ feed_calls pre (_timehack st) inbuf n
  /\ invoked (snd r) = invoked st1 ++ run_calls di (_timehack st1) inbuf n
  /\ (length (run_calls di (_timehack st1) inbuf n) <= 1)%nat
  /\ Forall (fun c => inv_self c = py_instance di)
       (run_calls di (_timehack st1) inbuf n).
Proof.
  intros Hdec Hpre Hfail f r.
  assert (E : r = match fst f with
                  | Exits status => (Exits status, snd f)
                  | Returns ret =>
                      (Exits 1,
                       set_errlog (errlog (snd f) ++ [DecoderRuntimeError ret])
                         (snd f))
                  end).
  { unfold r, srd_session_feed.
    rewrite Hdec, feed_loop_app, Hpre, feed_loop_cons. fold f.
    destruct (fst f) as [ret|status] eqn:Ef; [|reflexivity].
    rewrite is_error_true; [reflexivity|]. intros ->. now apply Hfail. }
  assert (Hst1 : invoked st1
                 = invoked st ++ feed_calls pre (_timehack st) inbuf n).
  { pose proof (feed_loop_spec pre inbuf n st) as (_ & _ & Hok & _).
    rewrite Hpre in Hok. now apply Hok. }
  assert (Hf : invoked (snd f)
               = invoked st1 ++ run_calls di (_timehack st1) inbuf n)
    by apply run_decoder_frame.
  split; [rewrite E; destruct (fst f); simpl; eauto|].
  split; [intros ret Hret; rewrite E, Hret; reflexivity|].
  split; [intros status Hs; rewrite E, Hs; reflexivity|].
  split; [exact Hst1|].
  split; [rewrite E; destruct (fst f); exact Hf|].
  apply run_calls_short.
Qed.

Lemma feed_fails_fast_witness :
  let st := snd (srd_session_feed (Some sample) 2 session_flaky) in
  let r := srd_session_feed (Some sample) 2 st in
  decoders st = [uart_instance; flaky_instance; uart_instance']
  /\ fst r = Exits 1
  /\ errlog (snd r) = errlog st ++ [DecoderRuntimeError SRD_ERR_PYTHON]
  /\ invoked (snd r)
     = invoked st
       ++ [mk_invocation (py_instance uart_instance) "decode"
             (DecodeArgs 8 10 sample);
           mk_invocation (py_instance flaky_instance) "decode"
             (DecodeArgs 10 10 sample)].
Proof.
  intros st r.
  pose (st1 := snd (srd_session_feed_loop [uart_instance] (Some sample) 2 st)).
  assert (Ef : fst (srd_run_decoder (Some flaky_instance) (Some sample) 2 st1)
               = Returns SRD_ERR_PYTHON) by reflexivity.
  assert (Hfail : fst (srd_run_decoder (Some flaky_instance) (Some sample) 2
                         st1) <> Returns SRD_OK).
  { rewrite Ef. intros H. discriminate H. }
  destruct (feed_fails_fast [uart_instance] [uart_instance'] flaky_instance
              (Some sample) 2 st st1 eq_refl eq_refl Hfail)
    as (_ & Hret & _ & Hpre & Hlog & _).
  fold r in Hret, Hlog.
  split; [reflexivity|].
  rewrite (Hret _ Ef) in Hlog |- *.
  split; [reflexivity|]. split; [reflexivity|].
  rewrite Hlog, Hpre, <- app_assoc. reflexivity.
Defined.

(** ** The order of the calls *)

Lemma call_frame (callable : pyclass) (st : state) :
  let r := PyObject_Call callable st in
  decoders (snd r) = decoders st
  /\ _timehack (snd r) = _timehack st
  /\ invoked (snd r) = invoked st
  /\ registry_grows st (snd r).
Proof.
  unfold PyObject_Call.
  match goal with
  | |- context [cl_init callable ?a ?p] =>
      destruct (cl_init callable a p) as [body res]
  end.
  match goal with
  | |- context [run_body body ?s] =>
      destruct (run_body_frame body s) as (Hd & Ht & Hi & Hg)
  end.
  cbn [snd]. split; [exact Hd|]. split; [exact Ht|]. split; [exact Hi|].
  refine (registry_grows_trans _ _ _ _ Hg). now apply registry_grows_same.
Qed.

(** One call of [srd_instance_new], by what the constructor does. *)
Lemma instance_new_call (id0 : string) (dec : srd_decoder) (st : state) :
  srd_get_decoder_by_id id0 st = Some dec ->
  let c := PyObject_Call (py_decobj dec) st in
  srd_instance_new id0 st
  = match fst c with
    | PyReturn o =>
        (Returns (Some (mk_srd_decoder_instance o)),
         set_decoders (decoders (snd c) ++ [mk_srd_decoder_instance o])
           (snd c))
    | PyRaise => (Returns None, snd c)
    | PySystemExit status => (Exits status, snd c)
    end.
Proof.
  intros Hget. unfold srd_instance_new. rewrite Hget.
  destruct (PyObject_Call (py_decobj dec) st) as [[o| |status] st'];
    reflexivity.
Qed.

Lemma instance_new_frame (id0 : string) (st : state) :
  let r := srd_instance_new id0 st in
  decoders (snd r)
  = decoders st
    ++ match fst r with Returns (Some di) => [di] | _ => [] end
  /\ invoked (snd r) = invoked st
  /\ _timehack (snd r) = _timehack st
  /\ registry_grows st (snd r).
Proof.
  cbv zeta.
  destruct (srd_get_decoder_by_id id0 st) as [dec|] eqn:Hget.
  - rewrite (instance_new_call id0 dec st Hget).
    destruct (call_frame (py_decobj dec) st) as (Hd & Ht & Hi & Hg).
    destruct (fst (PyObject_Call (py_decobj dec) st)) as [o| |status];
      cbn [fst snd]; rewrite ?app_nil_r.
    + simpl. rewrite Hd.
      split; [reflexivity|]. split; [exact Hi|]. split; [exact Ht|].
      refine (registry_grows_trans _ _ _ Hg _). now apply registry_grows_same.
    + auto.
    + auto.
  - unfold srd_instance_new. rewrite Hget. simpl. rewrite app_nil_r.
    auto using registry_grows_refl.
Qed.

Lemma instances_new_frame (ids : list string) (st : state) :
  let r := instances_new ids st in
  decoders (snd r) = decoders st ++ fst r
  /\ invoked (snd r) = invoked st
  /\ _timehack (snd r) = _timehack st
  /\ registry_grows st (snd r).
Proof.
  revert st. induction ids as [|id0 ids IH]; intros st.
  - simpl. rewrite app_nil_r. auto using registry_grows_refl.
  - cbn [instances_new].
    pose proof (instance_new_frame id0 st) as (Hd & Hi & Ht & Hg).
    destruct (srd_instance_new id0 st) as [[o|status] st1];
      cbn [fst snd] in Hd, Hi, Ht, Hg.
    + pose proof (IH st1) as (Hd' & Hi' & Ht' & Hg').
      destruct (instances_new ids st1) as [created st2].
      cbn [fst snd] in *.
      rewrite Hd', Hd, Hi', Hi, Ht', Ht, <- app_assoc.
      split; [destruct o; reflexivity|].
      eauto using registry_grows_trans.
    + cbn [fst snd]. auto.
Qed.

Lemma outcome_ok_dec (o : outcome srd_status) :
  o = Returns SRD_OK \/ o <> Returns SRD_OK.
Proof.
  destruct o as [[]|code]; auto; right; discriminate.
Qed.

(** C5.  After any sequence of [srd_instance_new] calls the list of active
    instances is the earlier list followed by the instances created, in the
    order of their creation.  [srd_session_start] then calls the start
    method of the instances of that list one by one, in that order: either
    it returns [SRD_OK] and the log has gained exactly the start calls of
    the whole list, or the list splits at the first instance whose start
    call does not return, and the log has gained the start calls of the
    instances before it and the call on that instance when its method
    exists, and nothing else.  [srd_session_feed] does the same with the
    decode calls, the counter running: it returns [SRD_OK] after the decode
    calls of the whole list, or it ends the process at the first instance
    whose run does not return [SRD_OK], after the decode calls of the
    instances before it and what that run added. *)
Theorem invocation_order (ids : list string) (st : state) :
  let created := fst (instances_new ids st) in
  let st1 := snd (instances_new ids st) in
  decoders st1 = decoders st ++ created
  /\ (forall driver unitsize starttime samplerate,
        let args := start_args driver unitsize starttime samplerate in
        let r := srd_session_start driver unitsize starttime samplerate st1 in
        (fst r = Returns SRD_OK
         /\ invoked (snd r) = invoked st1 ++ start_calls (decoders st1) args)
        \/ (exists pre di post s1,
              decoders st1 = pre ++ di :: post
              /\ srd_session_start_loop pre args st1 = (Returns SRD_OK, s1)
              /\ (forall v,
                    fst (PyObject_CallMethod (py_instance di) "start" args s1)
                    <> PyReturn v)
              /\ fst r <> Returns SRD_OK
              /\ invoked (snd r)
                 = invoked st1 ++ start_calls pre args
                   ++ call_log (py_instance di) "start" args))
  /\ (forall inbuf n,
        let r := srd_session_feed inbuf n st1 in
        (fst r = Returns SRD_OK
         /\ invoked (snd r)
            = invoked st1 ++ feed_calls (decoders st1) (_timehack st1) inbuf n)
        \/ (exists pre di post s1,
              decoders st1 = pre ++ di :: post
              /\ srd_session_feed_loop pre inbuf n st1 = (Returns SRD_OK, s1)
              /\ fst (srd_run_decoder (Some di) inbuf n s1) <> Returns SRD_OK
              /\ (exists code, fst r = Exits code)
              /\ invoked (snd r)
                 = invoked st1 ++ feed_calls pre (_timehack st1) inbuf n
                   ++ run_calls di (_timehack s1) inbuf n)).
Proof.
  intros created st1. split; [|split].
  - apply instances_new_frame.
  - intros driver unitsize starttime samplerate args r.
    pose proof (start_loop_spec (decoders st1) args st1)
      as (_ & _ & _ & _ & Hok & Hfail).
    fold (srd_session_start driver unitsize starttime samplerate st1) in *.
    fold r in Hok, Hfail.
    destruct (outcome_ok_dec (fst r)) as [E|E].
    + left. split; [exact E | now apply Hok].
    + right.
      destruct (Hfail E) as (pre & di & post & s1 & Hd & Hpre & Hno & _ & Hv).
      exists pre, di, post, s1. auto.
  - intros inbuf n r.
    pose proof (feed_loop_spec (decoders st1) inbuf n st1)
      as (_ & _ & Hok & Hfail).
    fold (srd_session_feed inbuf n st1) in *. fold r in Hok, Hfail.
    destruct (outcome_ok_dec (fst r)) as [E|E].
    + left. split; [exact E | now apply Hok].
    + right.
      destruct (Hfail E) as (pre & di & post & s1 & Hd & Hpre & Hno & Hex & Hv).
      exists pre, di, post, s1. auto.
Qed.

Lemma invocation_order_witness :
  let ids := ["uart"; "nonexistent"; "flaky"]%string in
  let st1 := snd (instances_new ids loaded) in
  let args := start_args "demo" 1 0 1000000 in
  fst (instances_new ids loaded) = [uart_instance; flaky_instance]
  /\ decoders st1 = [uart_instance; flaky_instance]
  /\ invoked (snd (srd_session_start "demo" 1 0 1000000 st1))
     = [mk_invocation (py_instance uart_instance) "start" args;
        mk_invocation (py_instance flaky_instance) "start" args]
  /\ invoked (snd (srd_session_feed (Some sample) 2 st1))
     = [mk_invocation (py_instance uart_instance) "decode"
          (DecodeArgs 2 10 sample);
        mk_invocation (py_instance flaky_instance) "decode"
          (DecodeArgs 4 10 sample)].
Proof.
  intros ids st1 args.
  destruct (invocation_order ids loaded) as (Hcreated & Hstart & Hfeed).
  fold st1 in Hcreated, Hstart, Hfeed.
  split; [reflexivity|]. split; [rewrite Hcreated; reflexivity|].
  split.
  - destruct (Hstart "demo"%string 1 0 1000000)
      as [[_ Hinv] | (pre & di & post & s1 & _ & _ & _ & Hne & _)].
    + fold args in Hinv. rewrite Hinv, Hcreated. reflexivity.
    + exfalso. apply Hne. reflexivity.
  - destruct (Hfeed (Some sample) 2)
      as [[_ Hinv] | (pre & di & post & s1 & _ & _ & _ & [code Hex] & _)].
    + rewrite Hinv, Hcreated. reflexivity.
    + exfalso.
      assert (E : fst (srd_session_feed (Some sample) 2 st1) = Returns SRD_OK)
        by reflexivity.
      rewrite E in Hex. discriminate Hex.
Defined.

(** ** The counter *)

Lemma to_int_eq_mod (x y : Z) :
  to_int x = to_int y -> (y - x) mod 2 ^ 32 = 0.
Proof.
  unfold to_int. intros H.
  assert (E : (x + 2 ^ 31) mod 2 ^ 32 = (y + 2 ^ 31) mod 2 ^ 32) by lia.
  replace (y - x) with ((y + 2 ^ 31) - (x + 2 ^ 31)) by lia.
  rewrite Zminus_mod, E, Z.sub_diag. reflexivity.
Qed.

Lemma decode_calls_lookup (d : list srd_decoder_instance) (t : Z)
    (buf : list byte) (n : Z) (i : nat) (di : srd_decoder_instance) :
  d !! i = Some di ->
  decode_calls d t buf n !! i
  = Some (mk_invocation (py_instance di) "decode"
            (DecodeArgs (to_int (t + (Z.of_nat i + 1) * n)) 10
               (take (Z.to_nat n) buf))).
Proof.
  revert t i. induction d as [|di0 d IH]; intros t i H; [discriminate|].
  destruct i as [|i]; simpl in *.
  - injection H as ->. do 4 f_equal. lia.
  - rewrite (IH _ _ H), to_int_add_l. do 4 f_equal. lia.
Qed.

Lemma decode_calls_length (d : list srd_decoder_instance) (t : Z)
    (buf : list byte) (n : Z) :
  length (decode_calls d t buf n) = length d.
Proof.
  revert t. induction d as [|di d IH]; intros t; simpl; [|rewrite IH];
    reflexivity.
Qed.

(** C10, as amended.  [srd_run_decoder] advances the one counter [_timehack] by the
    length, in [int] arithmetic, on every call and before it looks at its
    arguments.  So a feed of length [n] that returns has advanced the
    counter by [n] once per active instance; on a buffer that is not null
    and a length that is not zero the i-th instance (from 0) is called with
    the time [t + (i + 1) * n], and these times differ from one instance to
    the other as long as [n] is positive and the advance between the first
    and the last stays below 2^32 (all of it modulo 2^32, the counter being
    an [int]); and a feed refused for a null buffer or
    a zero length, with an instance active, ends with the counter advanced
    by [n] although no decode call was made. *)
Theorem timehack_per_instance (inbuf : option (list byte)) (n : Z)
    (st : state) :
  let r := srd_session_feed inbuf n st in
  let t := _timehack st in
  let k := Z.of_nat (length (decoders st)) in
  (forall c, fst r = Returns c ->
     invoked (snd r) = invoked st ++ feed_calls (decoders st) t inbuf n
     /\ (decoders st <> [] -> _timehack (snd r) = to_int (t + k * n)))
  /\ (forall buf i di, inbuf = Some buf -> n <> 0 ->
        decoders st !! i = Some di ->
        feed_calls (decoders st) t inbuf n !! i
        = Some (mk_invocation (py_instance di) "decode"
                  (DecodeArgs (to_int (t + (Z.of_nat i + 1) * n)) 10
                     (take (Z.to_nat n) buf))))
  /\ (0 < n -> (k - 1) * n < 2 ^ 32 ->
      forall i j, (i < j < length (decoders st))%nat ->
        to_int (t + (Z.of_nat i + 1) * n) <> to_int (t + (Z.of_nat j + 1) * n))
  /\ (inbuf = None \/ n = 0 -> decoders st <> [] ->
      fst r = Exits 1 /\ invoked (snd r) = invoked st
      /\ _timehack (snd r) = to_int (t + n)).
Proof.
  intros r t k. split; [|split; [|split]].
  - intros c Hc.
    pose proof (feed_loop_spec (decoders st) inbuf n st)
      as (_ & Hret & Hok & _).
    fold (srd_session_feed inbuf n st) in Hret, Hok. fold r in Hret, Hok.
    rewrite (Hret c Hc) in Hc. exact (Hok Hc).
  - intros buf i di -> Hn Hi. unfold feed_calls.
    apply Z.eqb_neq in Hn. rewrite Hn.
    now apply decode_calls_lookup.
  - intros Hn Hspan i j Hij Heq.
    apply to_int_eq_mod in Heq.
    replace (t + (Z.of_nat j + 1) * n - (t + (Z.of_nat i + 1) * n))
      with ((Z.of_nat j - Z.of_nat i) * n) in Heq by lia.
    rewrite Z.mod_small in Heq; [nia|].
    split; [nia|].
    apply Z.le_lt_trans with ((k - 1) * n); [|exact Hspan].
    apply Z.mul_le_mono_nonneg_r; lia.
  - intros Hargs Hne. unfold r, srd_session_feed.
    destruct (decoders st) as [|di d]; [congruence|].
    rewrite feed_loop_cons.
    rewrite (run_decoder_args di inbuf n st Hargs). simpl. auto.
Qed.

Lemma timehack_per_instance_witness :
  let second := mk_srd_decoder_instance (mk_pyinstance 2%nat uart) in
  let call di t := mk_invocation (py_instance di) "decode"
                     (DecodeArgs t 10 sample) in
  let r := srd_session_feed (Some sample) 2 session2 in
  let r' := srd_session_feed None 2 session2 in
  decoders session2 = [uart_instance; second]
  /\ _timehack session2 = 0
  /\ invoked (snd r) = [call uart_instance 2; call second 4]
  /\ _timehack (snd r) = 4
  /\ fst r' = Exits 1
  /\ invoked (snd r') = []
  /\ _timehack (snd r') = 2.
Proof.
  intros second call r r'.
  destruct (timehack_per_instance (Some sample) 2 session2)
    as (Hret & _ & _ & _).
  destruct (timehack_per_instance None 2 session2)
    as (_ & _ & _ & Hargs).
  assert (Hd : decoders session2 = [uart_instance; second]) by reflexivity.
  assert (Hne : decoders session2 <> []).
  { rewrite Hd. intros H. discriminate H. }
  destruct (Hret SRD_OK eq_refl) as [Hinv Htime].
  destruct (Hargs (or_introl eq_refl) Hne) as (Hexit & Hinv' & Htime').
  fold r in Hinv, Htime. fold r' in Hexit, Hinv', Htime'.
  split; [exact Hd|]. split; [reflexivity|].
  split; [rewrite Hinv; reflexivity|].
  split; [rewrite (Htime Hne); reflexivity|].
  split; [exact Hexit|].
  split; [rewrite Hinv'; reflexivity|].
  rewrite Htime'. reflexivity.
Defined.

(** C10 as stated fails: with five instances and a buffer of 2^30 bytes
    the feed returns [SRD_OK], the first and the fifth instance are called
    with the same time 2^30, and the counter, 0 before the feed, stands at
    2^30 after it, not at 5 * 2^30. *)
Lemma timehack_wraps :
  let n := 2 ^ 30 in
  let r := srd_session_feed (Some big_sample) n session5 in
  let fifth := mk_srd_decoder_instance (mk_pyinstance 8%nat uart) in
  let call di := mk_invocation (py_instance di) "decode"
                   (DecodeArgs (2 ^ 30) 10 (take (Z.to_nat n) big_sample)) in
  length (decoders session5) = 5%nat
  /\ decoders session5 !! 0%nat = Some uart_instance
  /\ decoders session5 !! 4%nat = Some fifth
  /\ uart_instance <> fifth
  /\ _timehack session5 = 0
  /\ invoked session5 = []
  /\ fst r = Returns SRD_OK
  /\ invoked (snd r) !! 0%nat = Some (call uart_instance)
  /\ invoked (snd r) !! 4%nat = Some (call fifth)
  /\ _timehack (snd r) = 2 ^ 30
  /\ _timehack (snd r) <> _timehack session5 + 5 * n.
Proof.
  intros n r fifth call.
  assert (E : _timehack (snd r) = 2 ^ 30) by reflexivity.
  repeat (split; [reflexivity|]).
  split; [intros H; discriminate H|].
  repeat (split; [reflexivity|]).
  rewrite E. change (_timehack session5) with 0. intros H.
  vm_compute in H. discriminate H.
Qed.

(** ** A single instance *)

Lemma feed_single (di : srd_decoder_instance) (buf : list byte)
    (c : srd_status) (st st' : state) :
  decoders st = [di] ->
  srd_session_feed (Some buf) (Z.of_nat (length buf)) st = (Returns c, st') ->
  decoders st' = [di]
  /\ _timehack st' = to_int (_timehack st + Z.of_nat (length buf))
  /\ invoked st'
     = invoked st
       ++ [mk_invocation (py_instance di) "decode"
             (DecodeArgs (to_int (_timehack st + Z.of_nat (length buf))) 10
                buf)].
Proof.
  intros Hdec Hfeed.
  pose proof (feed_loop_spec [di] (Some buf) (Z.of_nat (length buf)) st)
    as (Hdec' & Hret & Hok & _).
  unfold srd_session_feed in Hfeed. rewrite Hdec in Hfeed.
  assert (Hn : Z.of_nat (length buf) <> 0).
  { intros E. rewrite feed_loop_cons in Hfeed.
    rewrite run_decoder_args in Hfeed by auto. discriminate Hfeed. }
  rewrite Hfeed in Hdec', Hret, Hok. cbn [fst snd] in Hdec', Hret, Hok.
  rewrite (Hret c eq_refl) in Hok.
  destruct (Hok eq_refl) as [Hinv Htime].
  split; [congruence|]. split.
  - rewrite Htime by discriminate. f_equal. simpl length. lia.
  - rewrite Hinv. unfold feed_calls. apply Z.eqb_neq in Hn. rewrite Hn.
    cbn [decode_calls]. now rewrite Nat2Z.id, firstn_all.
Qed.

Lemma feed_all_single (di : srd_decoder_instance) (bufs : list (list byte))
    (st st' : state) :
  decoders st = [di] ->
  feed_all bufs st = (Returns SRD_OK, st') ->
  invoked st' = invoked st ++ decode_seq (py_instance di) (_timehack st) bufs.
Proof.
  revert st. induction bufs as [|buf bufs IH]; intros st Hdec Hall.
  - injection Hall as <-. simpl. now rewrite app_nil_r.
  - cbn [feed_all] in Hall.
    destruct (srd_session_feed (Some buf) (Z.of_nat (length buf)) st)
      as [[c|code] st1] eqn:E; [|discriminate Hall].
    destruct (feed_single di buf c st st1 Hdec E) as (Hdec1 & Ht & Hinv).
    destruct c; try discriminate Hall.
    rewrite (IH st1 Hdec1 Hall), Hinv, Ht, <- app_assoc. reflexivity.
Qed.

Lemma decode_seq_length (o : pyinstance) (t : Z) (bufs : list (list byte)) :
  length (decode_seq o t bufs) = length bufs.
Proof.
  revert t. induction bufs as [|buf bufs IH]; intros t; simpl;
    [|rewrite IH]; reflexivity.
Qed.

Lemma decode_seq_lookup (o : pyinstance) (t : Z) (bufs : list (list byte))
    (i : nat) (buf : list byte) :
  bufs !! i = Some buf ->
  decode_seq o t bufs !! i
  = Some (mk_invocation o "decode"
            (DecodeArgs (to_int (t + sum_len (take (S i) bufs))) 10 buf)).
Proof.
  revert t i. induction bufs as [|b bufs IH]; intros t i H; [discriminate|].
  destruct i as [|i].
  - simpl in H. injection H as ->. simpl. do 4 f_equal. lia.
  - simpl in H. cbn [decode_seq lookup list_lookup].
    rewrite (IH _ _ H), to_int_add_l. do 4 f_equal.
    change (take (S (S i)) (b :: bufs)) with (b :: take (S i) bufs).
    unfold sum_len. simpl. lia.
Qed.

(** C2, as amended.  In a session with exactly one active instance, a
    sequence of feeds of whole buffers that all return [SRD_OK] calls the
    decode method of that instance exactly once per feed, with the data
    equal to the buffer fed, the duration 10 and the time equal to the
    counter before the first feed plus the lengths of all feeds so far, the
    current one included, as an [int]: 2 on a first feed of length 2 in a
    fresh process, and 4 on a second one. *)
Theorem feed_single_instance (di : srd_decoder_instance)
    (bufs : list (list byte)) (st st' : state) :
  decoders st = [di] ->
  feed_all bufs st = (Returns SRD_OK, st') ->
  exists calls,
    invoked st' = invoked st ++ calls
    /\ length calls = length bufs
    /\ forall i buf, bufs !! i = Some buf ->
         calls !! i
         = Some (mk_invocation (py_instance di) "decode"
                   (DecodeArgs
                      (to_int (_timehack st + sum_len (take (S i) bufs))) 10
                      buf)).
Proof.
  intros Hdec Hall.
  exists (decode_seq (py_instance di) (_timehack st) bufs).
  split; [now apply feed_all_single|].
  split; [apply decode_seq_length|].
  intros i buf. apply decode_seq_lookup.
Qed.

Lemma feed_single_instance_witness :
  let bufs := [sample; sample] in
  let st' := snd (feed_all bufs session1) in
  exists calls,
    invoked st' = invoked session1 ++ calls
    /\ length calls = length bufs
    /\ forall i buf, bufs !! i = Some buf ->
         calls !! i
         = Some (mk_invocation (py_instance uart_instance) "decode"
                   (DecodeArgs
                      (to_int (_timehack session1 + sum_len (take (S i) bufs)))
                      10 buf)).
Proof.
  refine (feed_single_instance uart_instance [sample; sample] session1 _ _ _);
    reflexivity.
Defined.

(** C2 as stated fails: in a fresh process with one instance, a first feed
    of two bytes calls decode with the time 2 and a second one with the
    time 4, not with 0 and then 2. *)
Lemma first_feed_time_not_zero :
  let r := feed_all [sample; sample] session1 in
  let call t := mk_invocation (py_instance uart_instance) "decode"
                  (DecodeArgs t 10 sample) in
  decoders session1 = [uart_instance]
  /\ _timehack session1 = 0
  /\ invoked session1 = []
  /\ fst r = Returns SRD_OK
  /\ invoked (snd r) = [call 2; call 4]
  /\ invoked (snd r) <> [call 0; call 2].
Proof.
  intros r call.
  assert (E : invoked (snd r) = [call 2; call 4]) by reflexivity.
  repeat (split; [reflexivity|]).
  rewrite E. unfold call. intros H. 
  assert (H2 : inv_args (call 2) = inv_args (call 0)).
  { injection H as H _. unfold call. now rewrite <- H. }
  discriminate H2.
Qed.


(** * Further properties *)

(** ** Registration *)

Lemma valid_candidate_attrs (obj : pyclass) :
  valid_candidate obj = true <->
  forall key, key ∈ required_fields -> string_attr obj key = true.
Proof.
  unfold valid_candidate. rewrite forallb_forall. split.
  - intros H key Hkey. apply H. now apply list_elem_of_In.
  - intros H key Hkey. apply H. now apply list_elem_of_In.
Qed.

Lemma read_decoder_valid (p : interp) (obj : pyclass) :
  valid_candidate obj = true -> exists d, read_decoder p obj = Ok d.
Proof.
  intros Hvalid. destruct (read_decoder p obj) as [d|r] eqn:E; [eauto|].
  exfalso. revert E. unfold read_decoder.
  rewrite valid_candidate_attrs in Hvalid.
  repeat match goal with
         | |- context [h_str p obj ?k] =>
             destruct (h_str_cases p obj k) as [[Hk _] | (? & _ & ->)];
             [rewrite Hvalid in Hk by set_solver; discriminate|];
             cbn [bind]
         end.
  discriminate.
Qed.

Lemma forallb_false {A : Type} (f : A -> bool) (l : list A) :
  forallb f l = false -> exists x, x ∈ l /\ f x = false.
Proof.
  induction l as [|x l IH]; simpl; [discriminate|].
  destruct (f x) eqn:E; simpl.
  - intros H. destruct (IH H) as (y & Hy & Hf). exists y.
    split; [now right | assumption].
  - intros _. exists x. split; [left | assumption].
Qed.

Lemma read_decoder_invalid (p : interp) (obj : pyclass) :
  valid_candidate obj = false -> read_decoder p obj = Err SRD_ERR_PYTHON.
Proof.
  intros Hinvalid.
  apply forallb_false in Hinvalid as (key & Hin & Hkey).
  eauto using read_decoder_not_string.
Qed.

(** X1.  [srd_load_decoder] returns [SRD_OK] exactly when the eight
    attributes are all strings.  It then appends one descriptor, which holds
    the candidate object and the C strings of its attributes, to the end of
    the registry and logs its id; the instance list, the interpreter, the
    counter and the call log are as before. *)
Theorem load_decoder_ok_iff (obj : pyclass) (st : state) :
  let r := srd_load_decoder obj st in
  (fst r = SRD_OK <-> valid_candidate obj = true)
  /\ (fst r = SRD_OK ->
      exists d,
        snd r = set_list_pds (list_pds st ++ [d])
                  (set_errlog (errlog st ++ [Registered (id d)]) st)
        /\ py_decobj d = obj /\ as_supplied d).
Proof.
  intros r. unfold r, srd_load_decoder.
  destruct (valid_candidate obj) eqn:Hvalid.
  - destruct (read_decoder_valid (py st) obj Hvalid) as [d Hd].
    rewrite Hd. simpl. split; [tauto|]. intros _. exists d.
    apply read_decoder_supplied in Hd as [Hs Ho]. auto.
  - rewrite (read_decoder_invalid (py st) obj Hvalid). simpl.
    split; [split; discriminate | discriminate].
Qed.

Lemma get_loop_app_some (l1 l2 : list srd_decoder) (q : string)
    (d : srd_decoder) :
  srd_get_decoder_by_id_loop l1 q = Some d ->
  srd_get_decoder_by_id_loop (l1 ++ l2) q = Some d.
Proof.
  induction l1 as [|dec l1 IH]; simpl; [discriminate|].
  destruct (strcmp (id dec) q =? 0); auto.
Qed.

(** X2.  Registration never changes what an id resolves to: once
    [srd_get_decoder_by_id] finds a descriptor for an id, it finds the same
    one after any later [srd_load_decoder].  A valid candidate is appended
    even when its id is registered already; it is then out of reach of the
    lookup. *)
Theorem registration_keeps_lookup (obj : pyclass) (q : string)
    (d0 : srd_decoder) (st : state) :
  srd_get_decoder_by_id q st = Some d0 ->
  let r := srd_load_decoder obj st in
  srd_get_decoder_by_id q (snd r) = Some d0
  /\ (valid_candidate obj = true ->
      fst r = SRD_OK
      /\ length (list_pds (snd r)) = S (length (list_pds st))).
Proof.
  intros Hq r. unfold r.
  destruct (load_decoder_cases obj st) as [E | (d & Hd & Hok & Hl)].
  - rewrite E. simpl. split; [exact Hq|]. intros Hvalid.
    destruct (read_decoder_valid (py st) obj Hvalid) as [d Hd].
    unfold srd_load_decoder in E. rewrite Hd in E. discriminate.
  - split.
    + unfold srd_get_decoder_by_id, srd_list_decoders. rewrite Hl.
      now apply get_loop_app_some.
    + intros _. split; [exact Hok|]. rewrite Hl, length_app. simpl. lia.
Qed.

Lemma registration_keeps_lookup_witness :
  let d0 := mk_srd_decoder "uart" "UART" "L" "d" "ld" "a" "e" "gplv2+" uart in
  let r := srd_load_decoder uart loaded in
  srd_get_decoder_by_id "uart" (snd r) = Some d0
  /\ (valid_candidate uart = true ->
      fst r = SRD_OK
      /\ length (list_pds (snd r)) = S (length (list_pds loaded))).
Proof.
  refine (registration_keeps_lookup uart "uart" _ loaded _).
  reflexivity.
Defined.

Lemma load_decoder_decobjs (obj : pyclass) (st : state) :
  map py_decobj (list_pds (snd (srd_load_decoder obj st)))
  = map py_decobj (list_pds st)
    ++ (if valid_candidate obj then [obj] else []).
Proof.
  destruct (valid_candidate obj) eqn:Hvalid.
  - destruct (load_decoder_cases obj st) as [E | (d & Hd & _ & ->)].
    + destruct (read_decoder_valid (py st) obj Hvalid) as [d Hd].
      unfold srd_load_decoder in E. rewrite Hd in E. discriminate.
    + apply read_decoder_supplied in Hd as [_ <-].
      now rewrite map_app.
  - unfold srd_load_decoder.
    rewrite (read_decoder_invalid (py st) obj Hvalid). simpl.
    now rewrite app_nil_r.
Qed.

(** X3.  The registry keeps the order of registration: after any sequence
    of [sigrok.register] calls it holds, behind what it held before, one
    descriptor for each candidate all of whose eight attributes are
    strings, in the order of the calls; the other candidates leave no
    descriptor. *)
Theorem register_all_order (objs : list pyclass) (st : state) :
  map py_decobj (list_pds (register_all objs st))
  = map py_decobj (list_pds st)
    ++ filter (fun obj => valid_candidate obj = true) objs.
Proof.
  revert st. induction objs as [|obj objs IH]; intros st.
  - simpl. now rewrite app_nil_r.
  - change (register_all (obj :: objs) st)
      with (register_all objs (snd (srd_load_decoder obj st))).
    rewrite IH, load_decoder_decobjs, <- app_assoc. f_equal.
    rewrite filter_cons.
    destruct (valid_candidate obj); simpl; [|reflexivity].
    destruct (decide (true = true)); [reflexivity | congruence].
Qed.

Lemma c_str_nul_free (s : string) : nul_free (c_str s) = true.
Proof.
  induction s as [|c s IH]; simpl; [reflexivity|].
  destruct (Ascii.eqb c Ascii.zero) eqn:E; simpl; [reflexivity|].
  now rewrite E, IH.
Qed.

(** X4.  Every field of every registered descriptor is a C string: in a
    registry filled by [sigrok.register] calls no field holds a NUL byte,
    whatever the Python strings of the components hold, so that comparing
    and printing them as C strings sees them whole. *)
Theorem registered_fields_nul_free (objs : list pyclass) (st0 : state)
    (d : srd_decoder) :
  list_pds st0 = [] ->
  d ∈ list_pds (register_all objs st0) ->
  nul_free (id d) = true /\ nul_free (name d) = true
  /\ nul_free (longname d) = true /\ nul_free (desc d) = true
  /\ nul_free (longdesc d) = true /\ nul_free (author d) = true
  /\ nul_free (email d) = true /\ nul_free (license d) = true.
Proof.
  intros Hempty Hd.
  assert (Hall : Forall as_supplied (list_pds (register_all objs st0))).
  { apply register_all_supplied. rewrite Hempty. constructor. }
  rewrite Forall_forall in Hall. specialize (Hall d Hd).
  destruct Hall as (s1 & s2 & s3 & s4 & s5 & s6 & s7 & s8 & H).
  destruct H as ((_ & ->) & (_ & ->) & (_ & ->) & (_ & ->) & (_ & ->)
                 & (_ & ->) & (_ & ->) & (_ & ->)).
  repeat split; apply c_str_nul_free.
Qed.

Lemma registered_fields_nul_free_witness :
  let d := mk_srd_decoder "odd" "" "a" "d" "ld" "a" "e" "gplv2+" odd in
  nul_free (id d) = true /\ nul_free (name d) = true
  /\ nul_free (longname d) = true /\ nul_free (desc d) = true
  /\ nul_free (longdesc d) = true /\ nul_free (author d) = true
  /\ nul_free (email d) = true /\ nul_free (license d) = true.
Proof.
  refine (registered_fields_nul_free [odd] initial _ _ _).
  - reflexivity.
  - apply list_elem_of_singleton. reflexivity.
Defined.


(** ** Instances and probes *)

Lemma call_class (callable : pyclass) (st : state) (o : pyinstance) :
  fst (PyObject_Call callable st) = PyReturn o -> in_class o = callable.
Proof.
  unfold PyObject_Call.
  match goal with
  | |- context [cl_init callable ?a ?p] =>
      destruct (cl_init callable a p) as [body [[]| |status]]
  end; simpl; [|discriminate|discriminate].
  now intros [= <-].
Qed.

(** X5.  For a registered id, [srd_instance_new] calls the object of the
    descriptor the lookup returns and leaves the interpreter, the registry
    and the error log as that call left them.  When the call returns, the
    new instance, an instance of that object, is returned and appended to
    the end of the instance list; when it raises, the result is NULL and
    the instance list is as before; when it raises [SystemExit], the
    process ends with the exit status of the exception.  The counter and
    the call log are untouched, and the registry has only grown: the
    constructor can have called [sigrok.register]. *)
Theorem instance_new_registered (id0 : string) (dec : srd_decoder)
    (st : state) :
  srd_get_decoder_by_id id0 st = Some dec ->
  let r := srd_instance_new id0 st in
  let c := PyObject_Call (py_decobj dec) st in
  invoked (snd r) = invoked st
  /\ _timehack (snd r) = _timehack st
  /\ py (snd r) = py (snd c)
  /\ list_pds (snd r) = list_pds (snd c)
  /\ errlog (snd r) = errlog (snd c)
  /\ registry_grows st (snd r)
  /\ match fst c with
     | PyReturn o =>
         in_class o = py_decobj dec
         /\ fst r = Returns (Some (mk_srd_decoder_instance o))
         /\ decoders (snd r) = decoders st ++ [mk_srd_decoder_instance o]
     | PyRaise => fst r = Returns None /\ decoders (snd r) = decoders st
     | PySystemExit status =>
         fst r = Exits status /\ decoders (snd r) = decoders st
     end.
Proof.
  intros Hdec r c.
  pose proof (instance_new_frame id0 st) as (_ & Hi & Ht & Hg).
  fold r in Hi, Ht, Hg.
  split; [exact Hi|]. split; [exact Ht|].
  pose proof (call_class (py_decobj dec) st) as Hclass.
  pose proof (call_frame (py_decobj dec) st) as (Hd & _).
  unfold r. rewrite (instance_new_call id0 dec st Hdec).
  fold c in Hclass, Hd |- *.
  assert (Hg' : registry_grows st (snd r)) by exact Hg.
  unfold r in Hg'. rewrite (instance_new_call id0 dec st Hdec) in Hg'.
  fold c in Hg'.
  destruct (fst c) as [o| |status]; cbn [fst snd] in *.
  - repeat (split; [first [reflexivity | exact Hg']|]).
    split; [now apply Hclass|]. split; [reflexivity|]. simpl. now rewrite Hd.
  - repeat (split; [first [reflexivity | exact Hg']|]). auto.
  - repeat (split; [first [reflexivity | exact Hg']|]). auto.
Qed.

Lemma instance_new_registered_witness :
  let r := srd_instance_new "uart" loaded in
  fst r = Returns (Some uart_instance)
  /\ decoders (snd r) = decoders loaded ++ [uart_instance]
  /\ invoked (snd r) = invoked loaded
  /\ _timehack (snd r) = _timehack loaded
  /\ list_pds (snd r) = list_pds loaded.
Proof.
  intros r.
  pose (dec := mk_srd_decoder "uart" "UART" "L" "d" "ld" "a" "e" "gplv2+" uart).
  destruct (instance_new_registered "uart" dec loaded eq_refl)
    as (Hi & Ht & _ & Hl & _ & _ & Hc).
  fold r in Hi, Ht, Hl, Hc.
  assert (E : fst (PyObject_Call (py_decobj dec) loaded)
              = PyReturn (py_instance uart_instance)) by reflexivity.
  rewrite E in Hc. destruct Hc as (_ & Hr & Hd).
  split; [exact Hr|]. split; [exact Hd|]. split; [exact Hi|].
  split; [exact Ht|]. rewrite Hl. reflexivity.
Defined.

Lemma set_py_same (st : state) : set_py (py st) st = st.
Proof. now destruct st. Qed.

(** X6.  [srd_instance_set_probe] returns [SRD_ERR_PYTHON] exactly when the
    instance has no attribute [probes], and then changes nothing.  In every
    other case it returns [SRD_OK], also when the attribute is no
    dictionary: the store then fails with -1, a result the function does
    not look at, and the dictionaries of the interpreter and what the
    scripts have put out are as before (the exception the failed store
    leaves pending is outside this model).  It never touches the registry,
    the instance list, the counter or the logs. *)
Theorem set_probe_outcome (di : srd_decoder_instance) (probename : string)
    (num : Z) (st : state) :
  let r := srd_instance_set_probe di probename num st in
  let attr := PyObject_GetAttrString (py st) (py_instance di) "probes" in
  (fst r = SRD_ERR_PYTHON <-> attr = None)
  /\ (fst r = SRD_OK <-> attr <> None)
  /\ (attr = None -> snd r = st)
  /\ (forall v, attr = Some v ->
        (forall a, v = PyDict a -> heap (py st) !! a = None) ->
        fst (PyMapping_SetItemString (py st) v probename (PyInt_FromLong num))
        = -1
        /\ fst r = SRD_OK
        /\ heap (py (snd r)) = heap (py st)
        /\ py_stdout (py (snd r)) = py_stdout (py st))
  /\ list_pds (snd r) = list_pds st /\ decoders (snd r) = decoders st
  /\ _timehack (snd r) = _timehack st /\ invoked (snd r) = invoked st
  /\ errlog (snd r) = errlog st.
Proof.
  intros r attr. unfold r, srd_instance_set_probe. fold attr.
  destruct attr as [v|] eqn:E; simpl.
  - split; [split; discriminate|]. split; [split; congruence|].
    split; [discriminate|]. split; [|auto 10].
    intros v' [= <-] Hdead. unfold PyMapping_SetItemString.
    destruct v as [| | |a]; simpl; auto.
    rewrite (Hdead a eq_refl). auto.
  - split; [tauto|]. split; [split; [discriminate | congruence]|].
    split; [reflexivity|]. split; [discriminate|]. auto 10.
Qed.

Lemma set_probe_outcome_witness :
  let r := srd_instance_set_probe plain_instance "DATA" 3 session_plain in
  let r' := srd_instance_set_probe selfish_instance "DATA" 5
              (snd (srd_instance_set_probe selfish_instance "probes" 3
                      session_selfish)) in
  decoders session_plain = [plain_instance]
  /\ fst r = SRD_ERR_PYTHON
  /\ snd r = session_plain
  /\ fst r' = SRD_OK
  /\ dict_lookup (snd r') 0%nat "DATA" = None.
Proof.
  intros r r'.
  destruct (set_probe_outcome plain_instance "DATA" 3 session_plain)
    as (Herr & _ & Hsame & _).
  fold r in Herr, Hsame.
  destruct (set_probe_outcome selfish_instance "DATA" 5
              (snd (srd_instance_set_probe selfish_instance "probes" 3
                      session_selfish)))
    as (_ & _ & _ & Hfail & _).
  fold r' in Hfail.
  destruct (Hfail (PyInt 3) eq_refl) as (_ & Hok & _);
    [intros a H; discriminate H|].
  split; [reflexivity|]. split; [apply Herr; reflexivity|].
  split; [apply Hsame; reflexivity|]. split; [exact Hok | reflexivity].
Defined.

(** X7.  A probe set through one instance lands in the dictionary its
    [probes] attribute refers to: every instance whose [probes] is that
    same dictionary (a dictionary of the class, say) sees it, and the
    dictionaries at other addresses are left as they were. *)
Theorem set_probe_aliasing (di : srd_decoder_instance) (probename : string)
    (num : Z) (a : addr) (d : gmap string pyvalue) (st : state) :
  PyObject_GetAttrString (py st) (py_instance di) "probes" = Some (PyDict a) ->
  heap (py st) !! a = Some d ->
  let st' := snd (srd_instance_set_probe di probename num st) in
  (forall di', PyObject_GetAttrString (py st) (py_instance di') "probes"
               = Some (PyDict a) ->
               a <> in_dict (py_instance di') \/ probename <> "probes" ->
     PyObject_GetAttrString (py st') (py_instance di') "probes"
     = Some (PyDict a)
     /\ dict_lookup st' a probename = Some (PyInt num))
  /\ (forall a' key, a' <> a -> dict_lookup st' a' key = dict_lookup st a' key).
Proof.
  intros Hattr Hd st'.
  assert (E : st' = set_py (mk_interp (<[a := <[probename := PyInt num]> d]>
                                         (heap (py st))) (py_stdout (py st))) st).
  { unfold st', srd_instance_set_probe. rewrite Hattr.
    unfold PyMapping_SetItemString. now rewrite Hd. }
  rewrite E. split.
  - intros di' Hattr' Hside. split.
    + simpl. now apply getattr_probes_stable.
    + unfold dict_lookup. simpl. rewrite lookup_insert_eq.
      apply lookup_insert_eq.
  - intros a' key Hne. unfold dict_lookup. simpl.
    now rewrite lookup_insert_ne.
Qed.

Lemma set_probe_aliasing_witness :
  let st' := snd (srd_instance_set_probe spi_instance "CLK" 3 session_spi) in
  (forall di', PyObject_GetAttrString (py session_spi) (py_instance di') "probes"
               = Some (PyDict 7%nat) ->
               7%nat <> in_dict (py_instance di') \/ "CLK"%string <> "probes"%string ->
     PyObject_GetAttrString (py st') (py_instance di') "probes"
     = Some (PyDict 7%nat)
     /\ dict_lookup st' 7%nat "CLK" = Some (PyInt 3))
  /\ (forall a' key, a' <> 7%nat ->
        dict_lookup st' a' key = dict_lookup session_spi a' key).
Proof.
  refine (set_probe_aliasing spi_instance "CLK" 3 7%nat ∅ session_spi _ _);
    reflexivity.
Defined.


(** ** What the session calls leave alone, and what they can return *)

Lemma registry_grows_extends (st st' : state) :
  registry_grows st st' ->
  exists new, list_pds st' = list_pds st ++ new /\ Forall as_supplied new.
Proof.
  intros (new & Hl & Hnew & _). eauto.
Qed.

(** Under the loop of [srd_session_feed] the registry only grows, and the
    error log gains only the lines of what was registered as long as the
    loop goes on. *)
Lemma feed_loop_registry (d : list srd_decoder_instance)
    (inbuf : option (list byte)) (n : Z) (st : state) :
  let r := srd_session_feed_loop d inbuf n st in
  (fst r = Returns SRD_OK -> registry_grows st (snd r))
  /\ exists new, list_pds (snd r) = list_pds st ++ new
                 /\ Forall as_supplied new.
Proof.
  revert st. induction d as [|di d IH]; intros st.
  - simpl. split; [intros _; apply registry_grows_refl|].
    apply registry_grows_extends, registry_grows_refl.
  - cbv zeta. rewrite feed_loop_cons.
    pose proof (run_decoder_frame di inbuf n st) as (_ & _ & Hg & _).
    destruct (fst (srd_run_decoder (Some di) inbuf n st)) as [ret|status].
    + destruct (is_error ret).
      * cbn [fst snd]. split; [discriminate|].
        now apply registry_grows_extends in Hg.
      * destruct (IH (snd (srd_run_decoder (Some di) inbuf n st)))
          as (Hok & Hext).
        split; [intros H; eauto using registry_grows_trans|].
        apply registry_grows_extends in Hg as (new0 & Hl0 & Hnew0).
        destruct Hext as (new1 & Hl1 & Hnew1).
        exists (new0 ++ new1). rewrite Hl1, Hl0, <- app_assoc.
        split; [reflexivity|]. apply Forall_app. auto.
    + cbn [fst snd]. split; [discriminate|].
      now apply registry_grows_extends in Hg.
Qed.

(** X8.  The instance list is changed by [srd_instance_new] only and the
    counter by [srd_session_feed] only: starting, feeding and setting a
    probe leave the instance list as it is, and starting a session, setting
    a probe, registering and creating an instance leave the counter as it
    is.  The registry is only ever appended to: [srd_instance_set_probe]
    leaves it alone, and the scripts that [srd_instance_new],
    [srd_session_start] and [srd_session_feed] run can call
    [sigrok.register], which adds descriptors at its end, each read from its
    component, and under the first two nothing but their lines to the error
    log. *)
Theorem session_calls_frame (st : state) :
  (forall driver unitsize starttime samplerate,
     let st' := snd (srd_session_start driver unitsize starttime samplerate st) in
     decoders st' = decoders st /\ _timehack st' = _timehack st
     /\ registry_grows st st')
  /\ (forall inbuf n,
        let r := srd_session_feed inbuf n st in
        decoders (snd r) = decoders st
        /\ (exists new, list_pds (snd r) = list_pds st ++ new
                        /\ Forall as_supplied new)
        /\ (fst r = Returns SRD_OK -> registry_grows st (snd r)))
  /\ (forall di probename num,
        let st' := snd (srd_instance_set_probe di probename num st) in
        list_pds st' = list_pds st /\ decoders st' = decoders st
        /\ _timehack st' = _timehack st /\ errlog st' = errlog st
        /\ invoked st' = invoked st)
  /\ (forall id0,
        let st' := snd (srd_instance_new id0 st) in
        _timehack st' = _timehack st /\ invoked st' = invoked st
        /\ registry_grows st st')
  /\ (forall obj,
        let st' := snd (srd_load_decoder obj st) in
        decoders st' = decoders st /\ _timehack st' = _timehack st
        /\ py st' = py st /\ invoked st' = invoked st).
Proof.
  split; [|split; [|split; [|split]]].
  - intros driver unitsize starttime samplerate st'.
    pose proof (start_loop_spec (decoders st)
                  (start_args driver unitsize starttime samplerate) st)
      as (Hd & Ht & Hg & _).
    auto.
  - intros inbuf n r.
    pose proof (feed_loop_registry (decoders st) inbuf n st) as (Hg & Hext).
    pose proof (feed_loop_spec (decoders st) inbuf n st) as (Hd & _).
    auto.
  - intros di probename num st'. unfold st', srd_instance_set_probe.
    destruct (PyObject_GetAttrString _ _ _); simpl; auto.
  - intros id0 st'.
    pose proof (instance_new_frame id0 st) as (_ & Hi & Ht & Hg). auto.
  - intros obj st'. unfold st', srd_load_decoder.
    destruct (read_decoder (py st) obj); simpl; auto.
Qed.

Lemma session_calls_frame_witness :
  let r := srd_session_feed (Some sample) 2 session_registering in
  decoders session_registering = [registering_instance]
  /\ decoders (snd r) = [registering_instance]
  /\ list_pds (snd r)
     = list_pds session_registering
       ++ [mk_srd_decoder "odd" "" "a" "d" "ld" "a" "e" "gplv2+" odd]
  /\ errlog (snd r) = errlog session_registering ++ [Registered "odd"].
Proof.
  intros r.
  destruct (session_calls_frame session_registering) as (_ & Hfeed & _).
  destruct (Hfeed (Some sample) 2) as (Hd & _ & _). fold r in Hd.
  split; [reflexivity|]. split; [rewrite Hd; reflexivity|].
  split; reflexivity.
Defined.

(** X9.  [srd_session_feed] never returns an error status: when it returns,
    the status is [SRD_OK]; otherwise it has ended the process.
    [srd_run_decoder], when it returns, returns [SRD_OK], [SRD_ERR_ARGS] or
    [SRD_ERR_PYTHON]; [srd_session_start], when it returns, [SRD_OK] or
    [SRD_ERR_PYTHON]; [srd_load_decoder] and [srd_instance_set_probe]
    always return, [SRD_OK] or [SRD_ERR_PYTHON]. *)
Theorem possible_results (st : state) :
  (forall inbuf n,
     fst (srd_session_feed inbuf n st) = Returns SRD_OK
     \/ exists code, fst (srd_session_feed inbuf n st) = Exits code)
  /\ (forall di inbuf n c,
        fst (srd_run_decoder (Some di) inbuf n st) = Returns c ->
        c = SRD_OK \/ c = SRD_ERR_ARGS \/ c = SRD_ERR_PYTHON)
  /\ (forall driver unitsize starttime samplerate c,
        fst (srd_session_start driver unitsize starttime samplerate st)
        = Returns c ->
        c = SRD_OK \/ c = SRD_ERR_PYTHON)
  /\ (forall obj,
        fst (srd_load_decoder obj st) = SRD_OK
        \/ fst (srd_load_decoder obj st) = SRD_ERR_PYTHON)
  /\ (forall di probename num,
        fst (srd_instance_set_probe di probename num st) = SRD_OK
        \/ fst (srd_instance_set_probe di probename num st) = SRD_ERR_PYTHON).
Proof.
  split; [|split; [|split; [|split]]].
  - intros inbuf n.
    pose proof (feed_loop_spec (decoders st) inbuf n st)
      as (_ & _ & _ & Hfail).
    fold (srd_session_feed inbuf n st) in Hfail.
    destruct (outcome_ok_dec (fst (srd_session_feed inbuf n st))) as [E|E];
      [left; exact E | right].
    destruct (Hfail E) as (pre & di & post & st1 & _ & _ & _ & Hex & _).
    exact Hex.
  - intros di inbuf n c. apply run_decoder_codes.
  - intros driver unitsize starttime samplerate c.
    pose proof (start_loop_spec (decoders st)
                  (start_args driver unitsize starttime samplerate) st)
      as (_ & _ & _ & H & _).
    apply H.
  - intros obj.
    destruct (load_decoder_cases obj st) as [-> | (d & _ & -> & _)]; auto.
  - intros di probename num. unfold srd_instance_set_probe.
    destruct (PyObject_GetAttrString _ _ _); simpl; auto.
Qed.

Lemma possible_results_witness :
  fst (srd_session_feed (Some sample) 2 session_quitter) = Exits 3
  /\ errlog (snd (srd_session_feed (Some sample) 2 session_quitter))
     = errlog session_quitter
  /\ fst (srd_session_feed (Some sample) 2 session3) = Exits 1
  /\ fst (srd_session_feed (Some sample) 2 session2) = Returns SRD_OK.
Proof.
  destruct (possible_results session2) as (Hfeed & _).
  split; [reflexivity|]. split; [reflexivity|]. split; [reflexivity|].
  destruct (Hfeed (Some sample) 2) as [E | [code E]]; [exact E|].
  exfalso.
  assert (E' : fst (srd_session_feed (Some sample) 2 session2)
               = Returns SRD_OK) by reflexivity.
  rewrite E' in E. discriminate E.
Defined.

(** ** Decoders that do not raise *)








(** ** The range of the counter *)

Lemma to_int_range (z : Z) : INT_MIN <= to_int z <= INT_MAX.
Proof.
  unfold to_int, INT_MIN, INT_MAX.
  pose proof (Z.mod_pos_bound (z + 2 ^ 31) (2 ^ 32) ltac:(lia)). lia.
Qed.

Lemma to_int_wrap (z : Z) :
  INT_MAX < z <= INT_MAX + 2 ^ 32 -> to_int z = z - 2 ^ 32.
Proof.
  unfold to_int, INT_MAX. intros H.
  replace (z + 2 ^ 31) with ((z - 2 ^ 32 + 2 ^ 31) + 1 * 2 ^ 32) by lia.
  rewrite Z.mod_add by lia. rewrite Z.mod_small; lia.
Qed.

Lemma run_decoder_timehack (dec : option srd_decoder_instance)
    (inbuf : option (list byte)) (n : Z) (st : state) :
  _timehack (snd (srd_run_decoder dec inbuf n st))
  = to_int (_timehack st + n).
Proof.
  destruct dec as [di|]; [apply run_decoder_frame|].
  unfold srd_run_decoder. now rewrite to_int_uint64_add.
Qed.

(** X12.  The counter stays a 32-bit [int] whatever the length: after
    [srd_run_decoder] it lies between INT_MIN and INT_MAX.  It is the
    old value plus the length when that sum is in this range, and the sum
    less 2^32 when the sum passes INT_MAX by at most 2^32; for a length
    below 2^32 that takes the counter past INT_MAX, the new value lies
    below the old one. *)
Theorem timehack_range (dec : option srd_decoder_instance)
    (inbuf : option (list byte)) (n : Z) (st : state) :
  let t := _timehack st in
  let t' := _timehack (snd (srd_run_decoder dec inbuf n st)) in
  INT_MIN <= t' <= INT_MAX
  /\ (INT_MIN <= t + n <= INT_MAX -> t' = t + n)
  /\ (INT_MAX < t + n <= INT_MAX + 2 ^ 32 -> t' = t + n - 2 ^ 32)
  /\ (t <= INT_MAX -> n < 2 ^ 32 -> INT_MAX < t + n -> t' < t).
Proof.
  intros t t'. unfold t'. rewrite run_decoder_timehack. fold t.
  split; [apply to_int_range|]. split; [|split].
  - intros H. apply to_int_small. unfold INT_MIN in H. lia.
  - apply to_int_wrap.
  - intros Ht Hn H. rewrite to_int_wrap by (unfold INT_MAX in *; lia).
    lia.
Qed.

(** ** Discovery *)




Lemma import_module_frame (env : environment) (nm : string) (h : host) :
  let r := PyImport_ImportModule env nm h in
  py_initialized (snd r) = py_initialized h
  /\ dir_open (snd r) = dir_open h
  /\ imported (snd r) = imported h ++ [nm]
  /\ fst r = snd (import_module env (imported h) nm (py (core h)))
  /\ core (snd r)
     = run_body (fst (import_module env (imported h) nm (py (core h))))
         (core h).
Proof.
  unfold PyImport_ImportModule.
  destruct (import_module env (imported h) nm (py (core h))) as [body res].
  simpl. auto.
Qed.


(** One turn of the loop of [srd_init] on an entry that ends in ".py". *)
Lemma init_loop_cons (env : environment) (d_name : string)
    (names : list string) (h : host) :
  g_str_has_suffix d_name ".py" = true ->
  let c :=
    PyImport_ImportModule env (g_strndup d_name (strlen d_name - 3)) h in
  srd_init_loop env (d_name :: names) h
  = match fst c with
    | PyReturn _ => srd_init_loop env names (snd c)
    | PyRaise => (Returns SRD_ERR_PYTHON, snd c)
    | PySystemExit status => (Exits status, snd c)
    end.
Proof.
  intros Hpy. cbn [srd_init_loop]. rewrite Hpy. cbn [negb].
  destruct (PyImport_ImportModule env (g_strndup d_name (strlen d_name - 3)) h)
    as [[v| |status] h']; reflexivity.
Qed.

Lemma init_loop_skip (env : environment) (d_name : string)
    (names : list string) (h : host) :
  g_str_has_suffix d_name ".py" = false ->
  srd_init_loop env (d_name :: names) h = srd_init_loop env names h.
Proof.
  intros Hpy. cbn [srd_init_loop]. now rewrite Hpy.
Qed.

(** What the loop of [srd_init] leaves alone. *)
Lemma init_loop_frame (env : environment) (names : list string) (h : host) :
  let r := srd_init_loop env names h in
  py_initialized (snd r) = py_initialized h
  /\ (forall c, fst r = Returns c -> c = SRD_OK \/ c = SRD_ERR_PYTHON)
  /\ (fst r = Returns SRD_OK -> dir_open (snd r) = false)
  /\ (fst r <> Returns SRD_OK -> dir_open (snd r) = dir_open h)
  /\ decoders (core (snd r)) = decoders (core h)
  /\ _timehack (core (snd r)) = _timehack (core h)
  /\ invoked (core (snd r)) = invoked (core h)
  /\ registry_grows (core h) (core (snd r)).
Proof.
  revert h. induction names as [|d_name names IH]; intros h.
  - simpl. split; [reflexivity|]. split; [intros c [= <-]; auto|].
    split; [auto|]. split; [intros H; now destruct H|].
    auto using registry_grows_refl.
  - destruct (g_str_has_suffix d_name ".py") eqn:Hpy;
      [|cbv zeta; rewrite init_loop_skip by assumption; apply IH].
    cbv zeta. rewrite init_loop_cons by assumption.
    set (nm := g_strndup d_name (strlen d_name - 3)).
    pose proof (import_module_frame env nm h) as (Hp & Ho & _ & _ & Hc).
    pose proof (run_body_frame
                  (fst (import_module env (imported h) nm (py (core h))))
                  (core h)) as (Hd & Ht & Hv & Hg).
    rewrite <- Hc in Hd, Ht, Hv, Hg.
    destruct (fst (PyImport_ImportModule env nm h)) as [v| |status].
    + destruct (IH (snd (PyImport_ImportModule env nm h)))
        as (Hp' & Hcode & Hok & Herr & Hd' & Ht' & Hv' & Hg').
      split; [congruence|]. split; [exact Hcode|]. split; [exact Hok|].
      split; [intros Hf; rewrite (Herr Hf); exact Ho|].
      split; [congruence|]. split; [congruence|]. split; [congruence|].
      eauto using registry_grows_trans.
    + cbn [fst snd]. split; [exact Hp|]. split; [intros c [= <-]; auto|].
      split; [discriminate|]. auto 10.
    + cbn [fst snd]. split; [exact Hp|]. split; [discriminate|].
      split; [discriminate|]. auto 10.
Qed.











(** X15.  [srd_init] only ever appends to the registry: whatever the
    outcome, the descriptors held before are still there, in place, followed
    by those the imported modules registered, each holding the C strings of
    its component's attributes.  The instance list, the counter and the
    call log are not touched; nothing is reset when it is called again. *)
Theorem srd_init_appends (env : environment) (h : host) :
  let r := srd_init env h in
  (exists new, list_pds (core (snd r)) = list_pds (core h) ++ new
               /\ Forall as_supplied new)
  /\ decoders (core (snd r)) = decoders (core h)
  /\ _timehack (core (snd r)) = _timehack (core h)
  /\ invoked (core (snd r)) = invoked (core h).
Proof.
  intros r. unfold r, srd_init.
  assert (Hfin : forall g, g = Py_Finalize (Py_Initialize h) ->
            (exists new, list_pds (core g) = list_pds (core h) ++ new
                         /\ Forall as_supplied new)
            /\ decoders (core g) = decoders (core h)
            /\ _timehack (core g) = _timehack (core h)
            /\ invoked (core g) = invoked (core h)).
  { intros g ->. unfold Py_Finalize, Py_Initialize.
    destruct (py_initialized h); simpl;
      (split; [exists []; now rewrite app_nil_r | auto]). }
  destruct (init_module_ok env); cbn [negb snd];
    [|apply Hfin; reflexivity].
  destruct (run_simple_string env =? 0); cbn [negb snd];
    [|apply Hfin; reflexivity].
  destruct (decoders_dir env) as [names|]; cbn [snd];
    [|apply Hfin; reflexivity].
  pose proof (init_loop_frame env names (set_dir_open true (Py_Initialize h)))
    as (_ & _ & _ & _ & Hd & Ht & Hi & Hg).
  apply registry_grows_extends in Hg as (new & Hl & Hnew).
  assert (Hcore : list_pds (core (set_dir_open true (Py_Initialize h)))
                  = list_pds (core h)
                  /\ decoders (core (set_dir_open true (Py_Initialize h)))
                     = decoders (core h)
                  /\ _timehack (core (set_dir_open true (Py_Initialize h)))
                     = _timehack (core h)
                  /\ invoked (core (set_dir_open true (Py_Initialize h)))
                     = invoked (core h)).
  { unfold Py_Initialize. destruct (py_initialized h); simpl; auto. }
  destruct Hcore as (Cl & Cd & Ct & Ci).
  split; [exists new; split; [congruence | exact Hnew]|].
  split; [congruence|]. split; congruence.
Qed.
